(** * komob: a minimal Modbus-TCP server (komob.hpp)

    A shallow embedding of the protocol engine of [komob.hpp]: the
    big-endian helpers ([get_u16], [get_u32], [push_u16], [push_u32]),
    the register backend interface ([RegisterTable]) and its chain, the
    PDU dispatcher ([dispatch_pdu] and the three handlers), and the
    connection handler ([handle_single_request]) over a scripted socket.

    Conventions.
    - [uint8_t] is [Byte.byte]; [std::vector<uint8_t>] is [list byte].
    - [unsigned], [uint16_t], [uint32_t] and [size_t] are [Z]; every cast
      that can lose bits is written out ([u8], [u16], [u32]).
    - Backends are stateful and may throw: code that calls them lives in
      the monad [M], a state monad over the shared world [W] of all
      backends with an exception outcome. *)

From Stdlib Require Import ZArith List Bool Lia.
From Stdlib Require Import Strings.Byte.
From Stdlib Require Import Sorting.Permutation.
Import ListNotations.
Local Open Scope Z_scope.

(** ** Machine integers *)

Module Bytes.

(** The value of a [uint8_t], after integer promotion. *)
Definition to_Z (b : byte) : Z := Z.of_N (Byte.to_N b).

(** [static_cast<uint8_t>(z)]. *)
Definition u8 (z : Z) : byte :=
  match Byte.of_N (Z.to_N (z mod 256)) with
  | Some b => b
  | None => x00
  end.

(** [static_cast<uint16_t>(z)] and [static_cast<uint32_t>(z)]. *)
Definition u16 (z : Z) : Z := z mod 65536.
Definition u32 (z : Z) : Z := z mod 4294967296.

End Bytes.
Import Bytes.

(** ** Frame codec: big-endian helpers (komob.hpp, lines 83-98) *)

(** [p[i]] for a pointer [p] into a byte vector, given as the bytes from
    [p] onwards.  Every caller checks the vector's size first, so the
    default is never read. *)
Definition at_ (p : list byte) (i : nat) : Z := to_Z (nth i p x00).

(** [get_u16(p)]: [static_cast<uint16_t>((p[0] << 8) | p[1])]. *)
Definition get_u16 (p : list byte) : Z :=
  u16 (Z.lor (Z.shiftl (at_ p 0) 8) (at_ p 1)).

(** [get_u32(p)]: the four bytes are promoted to [int], shifted, or-ed and
    cast to [uint32_t]. *)
Definition get_u32 (p : list byte) : Z :=
  u32 (Z.lor (Z.lor (Z.lor (Z.shiftl (at_ p 0) 24) (Z.shiftl (at_ p 1) 16))
                    (Z.shiftl (at_ p 2) 8))
             (at_ p 3)).

(** [push_u16(out, v)], as the bytes appended to [out]; the argument is
    converted to the parameter type [uint16_t]. *)
Definition push_u16 (v : Z) : list byte :=
  let v := u16 v in
  [u8 (Z.land (Z.shiftr v 8) 255); u8 (Z.land v 255)].

(** [push_u32(out, v)], as the bytes appended to [out]. *)
Definition push_u32 (v : Z) : list byte :=
  let v := u32 v in
  [u8 (Z.land (Z.shiftr v 24) 255); u8 (Z.land (Z.shiftr v 16) 255);
   u8 (Z.land (Z.shiftr v 8) 255); u8 (Z.land v 255)].

(** ** The monad of backend calls

    A call into a backend may change the backends' state and may throw.
    [M W A] threads the world [W] (the state of every backend, shared by
    all tables of the chain) and records whether an exception is in
    flight; side effects made before a throw persist, as in C++. *)

Inductive outcome (A : Type) : Type :=
| Ret (a : A)
| Throw.
Arguments Ret {A} a.
Arguments Throw {A}.

Definition M (W A : Type) : Type := W -> outcome A * W.

Definition ret {W A : Type} (a : A) : M W A := fun w => (Ret a, w).

Definition bind {W A B : Type} (m : M W A) (k : A -> M W B) : M W B :=
  fun w =>
    match m w with
    | (Ret a, w') => k a w'
    | (Throw, w') => (Throw, w')
    end.

(** [try { m } catch (...) { handler }]. *)
Definition try_catch {W A : Type} (m : M W A) (handler : M W A) : M W A :=
  fun w =>
    match m w with
    | (Ret a, w') => (Ret a, w')
    | (Throw, w') => handler w'
    end.

Declare Scope komob_scope.
Delimit Scope komob_scope with komob.
Notation "x <- m ;; k" := (bind m (fun x => k))
  (at level 61, m at next level, right associativity) : komob_scope.
Local Open Scope komob_scope.

(** ** Register backend interface (komob.hpp, lines 36-44) *)

(** [class RegisterTable].  [read(address, value)] returns [true] after
    storing the register through [value], modelled as [Some value], and
    [false] as [None]; [write(address, value)] returns whether the table
    owns the address.  Both are virtual and non-const: they act on the
    world [W]. *)
Record RegisterTable (W : Type) : Type := {
  read : Z -> M W (option Z);
  write : Z -> Z -> M W bool
}.
Arguments read {W} _ _.
Arguments write {W} _ _ _.

(** The base class itself: it owns no address. *)
Definition RegisterTable_base {W : Type} : RegisterTable W :=
  {| read := fun _ => ret None;
     write := fun _ _ => ret false |}.

Inductive DataWidth : Type := W16 | W32.

(** ** Server (komob.hpp, lines 47-162) *)

Record Server (W : Type) : Type := {
  data_width : DataWidth;
  keepalive_idle : Z;
  keepalive_interval : Z;
  keepalive_count : Z;
  timeout_ms : Z;
  register_tables : list (RegisterTable W)
}.
Arguments data_width {W} _.
Arguments keepalive_idle {W} _.
Arguments keepalive_interval {W} _.
Arguments keepalive_count {W} _.
Arguments timeout_ms {W} _.
Arguments register_tables {W} _.

(** [Server::Server(register_table, width, keepalive_idle_sec,
    packet_timeout_ms)]; a null [register_table] is [None]. *)
Definition Server_new {W : Type} (register_table : option (RegisterTable W))
    (width : DataWidth) (keepalive_idle_sec packet_timeout_ms : Z) : Server W :=
  {| data_width := width;
     keepalive_idle := keepalive_idle_sec;
     keepalive_interval := 30;
     keepalive_count := 3;
     timeout_ms := packet_timeout_ms;
     register_tables :=
       match register_table with
       | Some t => [t]
       | None => []
       end |}.

(** [Server::add(register_table)]. *)
Definition add {W : Type} (srv : Server W)
    (register_table : option (RegisterTable W)) : Server W :=
  match register_table with
  | Some t =>
      {| data_width := data_width srv;
         keepalive_idle := keepalive_idle srv;
         keepalive_interval := keepalive_interval srv;
         keepalive_count := keepalive_count srv;
         timeout_ms := timeout_ms srv;
         register_tables := register_tables srv ++ [t] |}
  | None => srv
  end.

Definition EX_ILLEGAL_FUNCTION : byte := x01.
Definition EX_ILLEGAL_ADDRESS : byte := x02.
Definition EX_ILLEGAL_VALUE : byte := x03.
Definition EX_SLAVE_FAILURE : byte := x04.
Definition FC_READ_HOLDING_REGISTERS : byte := x03.
Definition FC_WRITE_SINGLE_REGISTER : byte := x06.
Definition FC_WRITE_MULTIPLE_REGISTERS : byte := x10.

(** ** PDU dispatcher (komob.hpp, lines 402-586) *)

(** [Server::exception_pdu(function_code, exception_code)]. *)
Definition exception_pdu (function_code exception_code : byte) : list byte :=
  [u8 (Z.lor (to_Z function_code) 128); exception_code].

(** [unsigned width = (data_width == DataWidth::W32) ? 2 : 1]. *)
Definition width_of (dw : DataWidth) : Z :=
  match dw with
  | W32 => 2
  | W16 => 1
  end.

Section Dispatcher.

Context {W : Type}.

(** The loop over [register_tables] of the read path (lines 464-469):
    the first table that handles the address wins. *)
Fixpoint chain_read (tables : list (RegisterTable W)) (address : Z)
    : M W (option Z) :=
  match tables with
  | [] => ret None
  | register_table :: rest =>
      r <- read register_table address ;;
      match r with
      | Some value => ret (Some value)
      | None => chain_read rest address
      end
  end.

(** The loop over [register_tables] of the write paths (lines 509-514 and
    561-566). *)
Fixpoint chain_write (tables : list (RegisterTable W)) (address value : Z)
    : M W bool :=
  match tables with
  | [] => ret false
  | register_table :: rest =>
      handled <- write register_table address value ;;
      if (handled : bool) then ret true else chain_write rest address value
  end.

(** The bytes pushed for one register read (lines 471-476):
    [push_u32(out, static_cast<uint32_t>(value))] in 32-bit mode,
    [push_u16(out, static_cast<uint16_t>(value))] in 16-bit mode. *)
Definition push_value (srv : Server W) (value : Z) : list byte :=
  match data_width srv with
  | W32 => push_u32 (u32 value)
  | W16 => push_u16 (u16 value)
  end.

(** The [for] loop of [read_holding_registers] (lines 461-482), from
    counter [i] and output [out] on.  The loop runs while
    [i*width < quantity]; [fuel] bounds the number of iterations and
    [quantity] iterations are always enough ([width >= 1]).  A miss
    returns from the function with the exception PDU. *)
Fixpoint read_loop (srv : Server W) (function_code : byte)
    (start quantity width : Z) (fuel : nat) (i : Z) (out : list byte)
    : M W (list byte) :=
  match fuel with
  | O => ret out
  | S fuel' =>
      if i * width <? quantity then
        let address := start + i in
        r <- chain_read (register_tables srv) address ;;
        match r with
        | Some value =>
            read_loop srv function_code start quantity width fuel' (i + 1)
              (out ++ push_value srv value)
        | None => ret (exception_pdu function_code EX_ILLEGAL_ADDRESS)
        end
      else ret out
  end.

(** [Server::read_holding_registers(request)] (lines 436-489). *)
Definition read_holding_registers (srv : Server W) (request : list byte)
    : M W (list byte) :=
  let function_code := nth 0 request x00 in
  if negb (length request =? 5)%nat then
    ret (exception_pdu function_code EX_ILLEGAL_VALUE)
  else
    let start := get_u16 (skipn 1 request) in
    let quantity := get_u16 (skipn 3 request) in
    let width := width_of (data_width srv) in
    if negb (quantity mod width =? 0) then
      ret (exception_pdu function_code EX_ILLEGAL_VALUE)
    else if 128 <? quantity then
      ret (exception_pdu function_code EX_ILLEGAL_VALUE)
    else
      try_catch
        (let out := [function_code; u8 (quantity * 2)] in
         read_loop srv function_code start quantity width
           (Z.to_nat quantity) 0 out)
        (ret (exception_pdu function_code EX_SLAVE_FAILURE)).

(** [Server::write_single_register(request)] (lines 492-523). *)
Definition write_single_register (srv : Server W) (request : list byte)
    : M W (list byte) :=
  let function_code := nth 0 request x00 in
  if negb (length request =? 5)%nat then
    ret (exception_pdu function_code EX_ILLEGAL_VALUE)
  else
    let address := get_u16 (skipn 1 request) in
    let value := get_u16 (skipn 3 request) in
    match data_width srv with
    | W32 => ret (exception_pdu function_code EX_ILLEGAL_VALUE)
    | W16 =>
        try_catch
          (handled <- chain_write (register_tables srv) address value ;;
           if negb handled then
             ret (exception_pdu function_code EX_ILLEGAL_ADDRESS)
           else ret request)
          (ret (exception_pdu function_code EX_SLAVE_FAILURE))
    end.

(** The value of logical register [i] of a Write Multiple Registers
    request (lines 552-559): 16 or 32 bits at [offset = 6 + 2*i*width]. *)
Definition request_value (srv : Server W) (request : list byte)
    (width i : Z) : Z :=
  let offset := 6 + 2 * i * width in
  match data_width srv with
  | W32 => get_u32 (skipn (Z.to_nat offset) request)
  | W16 => get_u16 (skipn (Z.to_nat offset) request)
  end.

(** The [for] loop of [write_multiple_registers] (lines 551-573), from
    counter [i] on: [Some pdu] when a miss returns from the function with
    the exception PDU, [None] when the loop runs to its end. *)
Fixpoint write_loop (srv : Server W) (function_code : byte)
    (request : list byte) (start quantity width : Z) (fuel : nat) (i : Z)
    : M W (option (list byte)) :=
  match fuel with
  | O => ret None
  | S fuel' =>
      if i * width <? quantity then
        let address := start + i in
        let value := request_value srv request width i in
        handled <- chain_write (register_tables srv) address value ;;
        if (handled : bool) then
          write_loop srv function_code request start quantity width fuel'
            (i + 1)
        else ret (Some (exception_pdu function_code EX_ILLEGAL_ADDRESS))
      else ret None
  end.

(** [Server::write_multiple_registers(request)] (lines 526-586). *)
Definition write_multiple_registers (srv : Server W) (request : list byte)
    : M W (list byte) :=
  let function_code := nth 0 request x00 in
  if (length request <? 6)%nat then
    ret (exception_pdu function_code EX_ILLEGAL_VALUE)
  else
    let start := get_u16 (skipn 1 request) in
    let quantity := get_u16 (skipn 3 request) in
    let byte_count := at_ request 5 in
    let width := width_of (data_width srv) in
    if negb (byte_count =? quantity * 2) then
      ret (exception_pdu function_code EX_ILLEGAL_VALUE)
    else if negb (quantity mod width =? 0) then
      ret (exception_pdu function_code EX_ILLEGAL_VALUE)
    else if negb (Z.of_nat (length request) =? 6 + byte_count) then
      ret (exception_pdu function_code EX_ILLEGAL_VALUE)
    else
      try_catch
        (r <- write_loop srv function_code request start quantity width
                (Z.to_nat quantity) 0 ;;
         match r with
         | Some pdu => ret pdu
         | None =>
             ret (function_code :: push_u16 (u16 start)
                    ++ push_u16 (u16 quantity))
         end)
        (ret (exception_pdu function_code EX_SLAVE_FAILURE)).

(** [Server::dispatch_pdu(request)] (lines 402-423). *)
Definition dispatch_pdu (srv : Server W) (request : list byte)
    : M W (list byte) :=
  if (length request <? 1)%nat then
    ret (exception_pdu x00 EX_ILLEGAL_FUNCTION)
  else
    let function_code := at_ request 0 in
    if function_code =? to_Z FC_READ_HOLDING_REGISTERS then
      read_holding_registers srv request
    else if function_code =? to_Z FC_WRITE_SINGLE_REGISTER then
      write_single_register srv request
    else if function_code =? to_Z FC_WRITE_MULTIPLE_REGISTERS then
      write_multiple_registers srv request
    else ret (exception_pdu (u8 function_code) EX_ILLEGAL_FUNCTION).

End Dispatcher.

(** ** Connection handler (komob.hpp, lines 99-135 and 331-399) *)

(** A socket is scripted by what its system calls will return.  Each
    [recv] consumes one [recv_event]: data that has arrived (of which
    [recv] takes at most what it is asked for; no data means the peer has
    closed), an interrupted call, or an error.  When the script is
    exhausted nothing arrives any more and [recv] fails with the receive
    timeout.  Each [send] consumes one [send_event]: the number of bytes
    the kernel accepts, an interrupted call, or an error; when the script
    is exhausted [send] accepts all it is given.  [sent] collects the bytes
    delivered to the peer. *)
Inductive recv_event : Type :=
| RecvData (bytes : list byte)
| RecvEINTR
| RecvError.

Inductive send_event : Type :=
| SendAccept (n : nat)
| SendEINTR
| SendError.

Record Socket : Type := {
  inbound : list recv_event;
  outbound : list send_event;
  sent : list byte
}.

(** The loop of [read_exact] with [n - off] bytes still to read and [buf]
    read so far. *)
Fixpoint read_exact_loop (script : list recv_event) (n : nat)
    (buf : list byte) {struct script} : option (list byte) * list recv_event :=
  match n with
  | O => (Some buf, script)
  | S _ =>
      match script with
      | [] => (None, [])
      | RecvData [] :: rest => (None, rest)
      | RecvData bytes :: rest =>
          if (length bytes <=? n)%nat then
            read_exact_loop rest (n - length bytes) (buf ++ bytes)
          else (Some (buf ++ firstn n bytes), RecvData (skipn n bytes) :: rest)
      | RecvEINTR :: rest => read_exact_loop rest n buf
      | RecvError :: rest => (None, rest)
      end
  end.

(** [read_exact(fd, buf, n)]: the buffer on success. *)
Definition read_exact (fd : Socket) (n : nat) : option (list byte) * Socket :=
  let (r, script) := read_exact_loop (inbound fd) n [] in
  (r, {| inbound := script; outbound := outbound fd; sent := sent fd |}).

(** The loop of [write_exact] with [data] still to send. *)
Fixpoint write_exact_loop (script : list send_event) (data : list byte)
    (delivered : list byte) {struct script}
    : bool * list send_event * list byte :=
  match data with
  | [] => (true, script, delivered)
  | _ :: _ =>
      match script with
      | [] => (true, [], delivered ++ data)
      | SendAccept O :: rest => (false, rest, delivered)
      | SendAccept n :: rest =>
          write_exact_loop rest (skipn n data) (delivered ++ firstn n data)
      | SendEINTR :: rest => write_exact_loop rest data delivered
      | SendError :: rest => (false, rest, delivered)
      end
  end.

(** [write_exact(fd, buf, n)]. *)
Definition write_exact (fd : Socket) (data : list byte) : bool * Socket :=
  match write_exact_loop (outbound fd) data (sent fd) with
  | (ok, script, delivered) =>
      (ok, {| inbound := inbound fd; outbound := script; sent := delivered |})
  end.

Module MBAP.

(** The four fields of the MBAP header, as [handle_single_request] holds
    them in [unsigned] locals. *)
Record t : Type := {
  transaction_id : Z;
  protocol_id : Z;
  length : Z;
  unit_id : Z
}.

End MBAP.

(** The decoding of the 7 header bytes in [handle_single_request]
    (lines 338-341). *)
Definition decode_header (header : list byte) : MBAP.t :=
  {| MBAP.transaction_id := get_u16 header;
     MBAP.protocol_id := get_u16 (skipn 2 header);
     MBAP.length := get_u16 (skipn 4 header);
     MBAP.unit_id := at_ header 6 |}.

(** The response header built in [handle_single_request] (lines 388-391)
    for a response PDU of [resp_pdu_size] bytes: the protocol id is the
    constant 0 and the length field is [1 + resp_pdu_size]. *)
Definition encode_header (transaction_id unit_id resp_pdu_size : Z)
    : list byte :=
  push_u16 transaction_id ++ push_u16 0
    ++ push_u16 (u16 (1 + resp_pdu_size)) ++ [u8 unit_id].

(** [Server::handle_single_request(fd)] (lines 331-399): whether the
    connection stays open, the socket and the backends afterwards. *)
Definition handle_single_request {W : Type} (srv : Server W) (fd : Socket)
    (w : W) : bool * Socket * W :=
  match read_exact fd 7 with
  | (None, fd) => (false, fd, w)
  | (Some header, fd) =>
      let h := decode_header header in
      let transaction_id := MBAP.transaction_id h in
      let protocol_id := MBAP.protocol_id h in
      let length := MBAP.length h in
      let unit_id := MBAP.unit_id h in
      if negb (protocol_id =? 0) then (false, fd, w)
      else if length <? 2 then (false, fd, w)
      else
        let pdu_length := if 1 <? length then length - 1 else 0 in
        if 256 <? pdu_length then (false, fd, w)
        else
          match read_exact fd (Z.to_nat pdu_length) with
          | (None, fd) => (false, fd, w)
          | (Some pdu, fd) =>
              let function_code :=
                match pdu with
                | [] => 0
                | b :: _ => to_Z b
                end in
              let (resp_pdu, w) :=
                match dispatch_pdu srv pdu w with
                | (Ret resp_pdu, w) => (resp_pdu, w)
                | (Throw, w) =>
                    (exception_pdu (u8 function_code) EX_SLAVE_FAILURE, w)
                end in
              let resp :=
                encode_header transaction_id unit_id
                  (Z.of_nat (List.length resp_pdu)) ++ resp_pdu in
              let (ok, fd) := write_exact fd resp in
              (ok, fd, w)
          end
  end.

(** ** The example backend (examples/server/modbus-server.cpp) *)

(** [registers[address] = value] on a [std::vector<unsigned>]. *)
Fixpoint vector_set (registers : list Z) (address : nat) (value : Z)
    : list Z :=
  match registers, address with
  | [], _ => []
  | _ :: rest, O => value :: rest
  | r :: rest, S address' => r :: vector_set rest address' value
  end.

(** [class MemoryRegisterTable]: the world is its [registers] vector. *)
Definition MemoryRegisterTable : RegisterTable (list Z) :=
  {| read := fun address registers =>
       if Z.of_nat (length registers) <=? address then (Ret None, registers)
       else (Ret (Some (nth (Z.to_nat address) registers 0)), registers);
     write := fun address value registers =>
       if Z.of_nat (length registers) <=? address then (Ret false, registers)
       else (Ret true, vector_set registers (Z.to_nat address) value) |}.

(** [MemoryRegisterTable(size)]: [size] registers, all 0. *)
Definition MemoryRegisterTable_new (size : nat) : list Z := repeat 0 size.

(** ** Observing backend calls *)

Inductive backend_call : Type :=
| CallRead (address : Z)
| CallWrite (address value : Z).

(** A table that behaves as [t] and also appends every call made to it to
    a log kept next to the world. *)
Definition logged {W : Type} (t : RegisterTable W)
    : RegisterTable (W * list backend_call) :=
  {| read := fun address s =>
       let (r, w') := read t address (fst s) in
       (r, (w', snd s ++ [CallRead address]));
     write := fun address value s =>
       let (r, w') := write t address value (fst s) in
       (r, (w', snd s ++ [CallWrite address value])) |}.

(** The server [srv] with every table of its chain logged. *)
Definition logged_server {W : Type} (srv : Server W)
    : Server (W * list backend_call) :=
  {| data_width := data_width srv;
     keepalive_idle := keepalive_idle srv;
     keepalive_interval := keepalive_interval srv;
     keepalive_count := keepalive_count srv;
     timeout_ms := timeout_ms srv;
     register_tables := map logged (register_tables srv) |}.

(** An example server over the example backend, with the constructor's
    default keepalive and timeout arguments. *)
Definition example_server (width : DataWidth) : Server (list Z) :=
  Server_new (Some MemoryRegisterTable) width 3600 1000.

(** ** Runs of the chain over consecutive registers *)

(** [reads_owned tables start i values w w']: reading the registers
    [start + i], [start + i + 1], ... in this order, from world [w], each
    read is answered by some table of the chain; the answers are [values]
    and the world afterwards is [w']. *)
Inductive reads_owned {W : Type} (tables : list (RegisterTable W))
    (start : Z) : Z -> list Z -> W -> W -> Prop :=
| reads_owned_nil (i : Z) (w : W) : reads_owned tables start i [] w w
| reads_owned_cons (i value : Z) (values : list Z) (w w1 w2 : W) :
    chain_read tables (start + i) w = (Ret (Some value), w1) ->
    reads_owned tables start (i + 1) values w1 w2 ->
    reads_owned tables start i (value :: values) w w2.

(** [writes_owned tables start value_at i n w w']: writing [value_at j] to
    register [start + j] for [j = i, ..., i + n - 1] in this order, from
    world [w], each write is accepted by some table of the chain; the
    world afterwards is [w']. *)
Inductive writes_owned {W : Type} (tables : list (RegisterTable W))
    (start : Z) (value_at : Z -> Z) : Z -> nat -> W -> W -> Prop :=
| writes_owned_nil (i : Z) (w : W) :
    writes_owned tables start value_at i O w w
| writes_owned_cons (i : Z) (n : nat) (w w1 w2 : W) :
    chain_write tables (start + i) (value_at i) w = (Ret true, w1) ->
    writes_owned tables start value_at (i + 1) n w1 w2 ->
    writes_owned tables start value_at i (S n) w w2.

(** ** The two kinds of response PDU *)

(** A normal response to [function_code]: it starts with the function
    code, which is one of the three implemented ones. *)
Definition normal_response (function_code : byte) (resp : list byte) : Prop :=
  In function_code [FC_READ_HOLDING_REGISTERS; FC_WRITE_SINGLE_REGISTER;
                    FC_WRITE_MULTIPLE_REGISTERS]
  /\ exists tail : list byte, resp = function_code :: tail.

(** An exception response to [function_code]: what [exception_pdu] builds
    from it and one of the four exception codes. *)
Definition exception_response (function_code : byte) (resp : list byte)
    : Prop :=
  exists exception_code : byte,
    In exception_code [EX_ILLEGAL_FUNCTION; EX_ILLEGAL_ADDRESS;
                       EX_ILLEGAL_VALUE; EX_SLAVE_FAILURE]
    /\ resp = exception_pdu function_code exception_code.

(** What a handler may do on a request that starts with [fc]: return
    (not throw) a response that starts with [fc], or an exception
    response to [fc]. *)
Definition handler_shape {W : Type} (fc : byte) (m : M W (list byte))
    : Prop :=
  forall w : W,
    exists (resp : list byte) (w' : W),
      m w = (Ret resp, w')
      /\ ((exists tail, resp = fc :: tail) \/ exception_response fc resp).

(** ** The byte stream of a socket script *)

(** The bytes a receive script carries, in arrival order. *)
Definition recv_bytes (script : list recv_event) : list byte :=
  flat_map (fun e => match e with
                     | RecvData bytes => bytes
                     | RecvEINTR => []
                     | RecvError => []
                     end) script.

(** A [recv] outcome that does not end [read_exact]: some data, or an
    interrupted call. *)
Definition recv_clean (e : recv_event) : bool :=
  match e with
  | RecvData (_ :: _) => true
  | RecvData [] => false
  | RecvEINTR => true
  | RecvError => false
  end.

(** A [send] outcome that does not end [write_exact]. *)
Definition send_clean (e : send_event) : bool :=
  match e with
  | SendAccept (S _) => true
  | SendAccept O => false
  | SendEINTR => true
  | SendError => false
  end.

(** ** Socket timeouts (komob.hpp, lines 307-318) *)

Record timeval : Type := {
  tv_sec : Z;
  tv_usec : Z
}.

(** The [timeval] that [set_sock_timeouts_ms] builds from a timeout in
    milliseconds: [tv_sec = ms / 1000], [tv_usec = (ms % 1000) * 1000],
    with the truncating [/] and [%] of C++ on [int]. *)
Definition timeval_of_ms (ms : Z) : timeval :=
  {| tv_sec := Z.quot ms 1000;
     tv_usec := Z.rem ms 1000 * 1000 |}.

(** [Server::set_sock_timeouts_ms(fd, rcv_ms, snd_ms)]: the values given
    to [SO_RCVTIMEO] and [SO_SNDTIMEO]. *)
Definition set_sock_timeouts_ms (rcv_ms snd_ms : Z) : timeval * timeval :=
  (timeval_of_ms rcv_ms, timeval_of_ms snd_ms).

(** ** Event loop: the pass over the connections (komob.hpp, lines 268-295) *)

(** [struct pollfd]. *)
Record pollfd : Type := {
  fd : Z;
  events : Z;
  revents : Z
}.

(** [v[i] = x] on a [std::vector], for [i] within the vector. *)
Fixpoint vector_assign {A : Type} (v : list A) (i : nat) (x : A) : list A :=
  match v, i with
  | [], _ => []
  | _ :: rest, O => x :: rest
  | a :: rest, S i' => a :: vector_assign rest i' x
  end.

(** [pollfd_list[i] = pollfd_list.back(); pollfd_list.pop_back();]. *)
Definition swap_remove {A : Type} (v : list A) (i : nat) (d : A) : list A :=
  removelast (vector_assign v i (last v d)).

Section EventLoop.

(** The event bits of [<poll.h>], a system header. *)
Variables POLLIN POLLERR POLLHUP POLLNVAL : Z.

(** The state [K] that a request handler and [::close] act on: the
    sockets and the backends.  [handle fd] is [handle_single_request(fd)],
    which may throw; [close fd] is [::close(fd)]. *)
Context {K : Type}.
Variable handle : Z -> K -> outcome bool * K.
Variable close : Z -> K -> K.

(** [pollfd.revents & (POLLERR | POLLHUP | POLLNVAL)]. *)
Definition has_error (p : pollfd) : bool :=
  negb (Z.land (revents p) (Z.lor (Z.lor POLLERR POLLHUP) POLLNVAL) =? 0).

(** [pollfd.revents & POLLIN]. *)
Definition is_readable (p : pollfd) : bool :=
  negb (Z.land (revents p) POLLIN =? 0).

(** The [for] loop over the connected sockets, from index [i] on: an entry
    with an error condition, or whose request handler returns [false] or
    throws, is closed and replaced by the last entry, which is examined
    next at the same index.  [fuel] bounds the iterations; the length of
    the list is always enough. *)
Fixpoint serve_connections (fuel : nat) (i : nat) (pollfd_list : list pollfd)
    (s : K) : list pollfd * K :=
  match fuel with
  | O => (pollfd_list, s)
  | S fuel' =>
      if (i <? length pollfd_list)%nat then
        let pollfd := nth i pollfd_list {| fd := 0; events := 0; revents := 0 |} in
        let fd := fd pollfd in
        let close_this := has_error pollfd in
        let '(close_this, s) :=
          if negb close_this && is_readable pollfd then
            match handle fd s with
            | (Ret true, s) => (close_this, s)
            | (Ret false, s) => (true, s)
            | (Throw, s) => (true, s)
            end
          else (close_this, s) in
        if (close_this : bool) then
          serve_connections fuel' i
            (swap_remove pollfd_list i {| fd := 0; events := 0; revents := 0 |})
            (close fd s)
        else serve_connections fuel' (S i) pollfd_list s
      else (pollfd_list, s)
  end.

End EventLoop.

(** The sockets of the process by descriptor, the descriptors closed so
    far, and the backends. *)
Record Kernel (W : Type) : Type := {
  sockets : list (Z * Socket);
  closed : list Z;
  backends : W
}.
Arguments sockets {W} _.
Arguments closed {W} _.
Arguments backends {W} _.

Fixpoint socket_lookup (table : list (Z * Socket)) (descriptor : Z)
    : option Socket :=
  match table with
  | [] => None
  | (d, sock) :: rest =>
      if d =? descriptor then Some sock else socket_lookup rest descriptor
  end.

Fixpoint socket_update (table : list (Z * Socket)) (descriptor : Z)
    (sock : Socket) : list (Z * Socket) :=
  match table with
  | [] => []
  | (d, old) :: rest =>
      if d =? descriptor then (d, sock) :: rest
      else (d, old) :: socket_update rest descriptor sock
  end.

Fixpoint socket_remove (table : list (Z * Socket)) (descriptor : Z)
    : list (Z * Socket) :=
  match table with
  | [] => []
  | (d, old) :: rest =>
      if d =? descriptor then rest
      else (d, old) :: socket_remove rest descriptor
  end.

(** [handle_single_request(fd)] on the socket that [fd] names; on a
    descriptor that names no socket [recv] fails and the request handler
    returns [false]. *)
Definition handle_fd {W : Type} (srv : Server W) (descriptor : Z)
    (k : Kernel W) : outcome bool * Kernel W :=
  match socket_lookup (sockets k) descriptor with
  | Some sock =>
      let '(ok, sock', w') := handle_single_request srv sock (backends k) in
      (Ret ok,
       {| sockets := socket_update (sockets k) descriptor sock';
          closed := closed k;
          backends := w' |})
  | None => (Ret false, k)
  end.

(** [::close(fd)]. *)
Definition close_fd {W : Type} (descriptor : Z) (k : Kernel W) : Kernel W :=
  {| sockets := socket_remove (sockets k) descriptor;
     closed := closed k ++ [descriptor];
     backends := backends k |}.

(** ** Register ranges of the example backend *)

(** The registers after [registers[start + j] = value_at j] for
    [j = i, ..., i + n - 1], in this order. *)
Fixpoint store_range (registers : list Z) (start : Z) (value_at : Z -> Z)
    (i : Z) (n : nat) : list Z :=
  match n with
  | O => registers
  | S n' =>
      store_range (vector_set registers (Z.to_nat (start + i)) (value_at i))
        start value_at (i + 1) n'
  end.

(** The registers [start + i], ..., [start + i + n - 1]. *)
Fixpoint load_range (registers : list Z) (start : Z) (i : Z) (n : nat)
    : list Z :=
  match n with
  | O => []
  | S n' =>
      nth (Z.to_nat (start + i)) registers 0
        :: load_range registers start (i + 1) n'
  end.

(** ** A backend that fails *)

(** A table whose [read] and [write] throw at address 0 and report a miss
    at every other address; it keeps no state. *)
Definition ThrowingRegisterTable : RegisterTable (list Z) :=
  {| read := fun address w =>
       if address =? 0 then (Throw, w) else (Ret None, w);
     write := fun address _ w =>
       if address =? 0 then (Throw, w) else (Ret false, w) |}.

(** The values [value_at i], ..., [value_at (i + n - 1)]. *)
Fixpoint range_values (value_at : Z -> Z) (i : Z) (n : nat) : list Z :=
  match n with
  | O => []
  | S n' => value_at i :: range_values value_at (i + 1) n'
  end.

(** A handler that returns (does not throw) a response of 2 to 258
    bytes. *)
Definition bounded_handler {W : Type} (m : M W (list byte)) : Prop :=
  forall w : W,
    exists (resp : list byte) (w' : W),
      m w = (Ret resp, w') /\ (2 <= length resp <= 258)%nat.

(** * Properties *)

(** ** Machine integers *)

Lemma to_Z_range (b : byte) : 0 <= to_Z b < 256.
Proof.
  unfold to_Z. pose proof (Byte.to_N_bounded b) as H.
  split; [apply N2Z.is_nonneg | ].
  change 256 with (Z.of_N 256). apply N2Z.inj_lt. lia.
Qed.

Lemma u8_to_Z (b : byte) : u8 (to_Z b) = b.
Proof.
  unfold u8. rewrite Z.mod_small by apply to_Z_range.
  unfold to_Z. rewrite N2Z.id, Byte.of_to_N. reflexivity.
Qed.

Lemma to_Z_u8 (z : Z) : to_Z (u8 z) = z mod 256.
Proof.
  unfold u8, to_Z.
  assert (Hr : 0 <= z mod 256 < 256) by (apply Z.mod_pos_bound; lia).
  destruct (Byte.of_N (Z.to_N (z mod 256))) as [b|] eqn:E.
  - apply Byte.to_of_N in E. rewrite E. apply Z2N.id. lia.
  - apply Byte.of_N_None_iff in E. lia.
Qed.

Lemma to_Z_inj (a b : byte) : to_Z a = to_Z b -> a = b.
Proof.
  intros H. rewrite <- (u8_to_Z a), <- (u8_to_Z b), H. reflexivity.
Qed.

Lemma u8_mod (z : Z) : u8 (z mod 256) = u8 z.
Proof. unfold u8. rewrite Z.mod_mod by lia. reflexivity. Qed.

Lemma u16_range (z : Z) : 0 <= u16 z < 65536.
Proof. unfold u16. apply Z.mod_pos_bound. lia. Qed.

Lemma u16_idem (z : Z) : u16 (u16 z) = u16 z.
Proof. unfold u16. apply Z.mod_mod. lia. Qed.

Lemma u32_idem (z : Z) : u32 (u32 z) = u32 z.
Proof. unfold u32. apply Z.mod_mod. lia. Qed.

Lemma u16_small (z : Z) : 0 <= z < 65536 -> u16 z = z.
Proof. unfold u16. apply Z.mod_small. Qed.

(** Bits below [2^n] do not meet bits shifted left by [n]. *)
Lemma lor_shiftl_low (a b n : Z) :
  0 <= n -> 0 <= b < 2 ^ n -> Z.lor (Z.shiftl a n) b = a * 2 ^ n + b.
Proof.
  intros Hn Hb.
  assert (Hland : Z.land (Z.shiftl a n) b = 0).
  { apply Z.bits_inj'. intros m Hm.
    rewrite Z.land_spec, Z.bits_0.
    destruct (Z.lt_ge_cases m n) as [Hlt | Hge].
    - rewrite Z.shiftl_spec_low by assumption. reflexivity.
    - destruct (Z.eq_dec b 0) as [-> | Hnz].
      + rewrite Z.bits_0. apply andb_false_r.
      + rewrite (Z.bits_above_log2 b m); [apply andb_false_r | lia | ].
        apply Z.lt_le_trans with n; [ | assumption].
        apply Z.log2_lt_pow2; lia. }
  rewrite <- Z.lxor_lor by assumption.
  rewrite <- Z.add_nocarry_lxor by assumption.
  rewrite Z.shiftl_mul_pow2 by assumption. reflexivity.
Qed.

(** ** Frame codec *)

Lemma get_u16_cons (a b : byte) (rest : list byte) :
  get_u16 (a :: b :: rest) = to_Z a * 256 + to_Z b.
Proof.
  unfold get_u16, at_. cbn [nth].
  pose proof (to_Z_range a). pose proof (to_Z_range b).
  rewrite lor_shiftl_low by (change (2 ^ 8) with 256; lia).
  change (2 ^ 8) with 256. apply u16_small. lia.
Qed.

Lemma get_u16_range (p : list byte) : 0 <= get_u16 p < 65536.
Proof. unfold get_u16. apply u16_range. Qed.

(** [push_u16] splits a 16-bit value into its high and low byte. *)
Lemma push_u16_bytes (a b : byte) : push_u16 (to_Z a * 256 + to_Z b) = [a; b].
Proof.
  pose proof (to_Z_range a) as Ha. pose proof (to_Z_range b) as Hb.
  unfold push_u16. rewrite u16_small by lia.
  change 255 with (Z.ones 8). rewrite !Z.land_ones by lia.
  rewrite Z.shiftr_div_pow2 by lia. change (2 ^ 8) with 256.
  rewrite !u8_mod.
  replace ((to_Z a * 256 + to_Z b) / 256) with (to_Z a)
    by (apply Z.div_unique with (to_Z b); lia).
  rewrite u8_to_Z. f_equal. f_equal.
  rewrite <- u8_mod.
  replace ((to_Z a * 256 + to_Z b) mod 256) with (to_Z b)
    by (apply Z.mod_unique with (to_Z a); lia).
  apply u8_to_Z.
Qed.

(** Writing back what [get_u16] read gives the same two bytes. *)
Lemma push_u16_get_u16 (a b : byte) (rest : list byte) :
  push_u16 (get_u16 (a :: b :: rest)) = [a; b].
Proof. rewrite get_u16_cons. apply push_u16_bytes. Qed.

Lemma get_u16_zero (a b : byte) (rest : list byte) :
  get_u16 (a :: b :: rest) = 0 -> a = x00 /\ b = x00.
Proof.
  rewrite get_u16_cons. intros H.
  pose proof (to_Z_range a). pose proof (to_Z_range b).
  split; apply to_Z_inj; change (to_Z x00) with 0; lia.
Qed.

(** ** MBAP header *)

(** C9. A 7-byte MBAP header with protocol id 0 and length at least 2 is
    reproduced byte for byte when its decoded transaction id and unit id
    are encoded again for a payload of [length - 1] bytes: the encoder
    writes protocol id 0 and length [1 + (length - 1)]. *)
Theorem header_round_trip (header : list byte) :
  length header = 7%nat ->
  MBAP.protocol_id (decode_header header) = 0 ->
  2 <= MBAP.length (decode_header header) ->
  encode_header (MBAP.transaction_id (decode_header header))
    (MBAP.unit_id (decode_header header))
    (MBAP.length (decode_header header) - 1) = header.
Proof.
  intros Hlen Hproto _.
  destruct header as [|b0 [|b1 [|b2 [|b3 [|b4 [|b5 [|b6 [|? ?]]]]]]]];
    try discriminate Hlen.
  unfold decode_header, encode_header in *. cbn [MBAP.transaction_id
    MBAP.protocol_id MBAP.length MBAP.unit_id skipn] in *.
  apply get_u16_zero in Hproto. destruct Hproto as [-> ->].
  rewrite push_u16_get_u16.
  replace (1 + (get_u16 [b4; b5; b6] - 1)) with (get_u16 [b4; b5; b6]) by lia.
  unfold get_u16 at 1. rewrite u16_idem. fold (get_u16 [b4; b5; b6]).
  rewrite push_u16_get_u16.
  unfold at_. cbn [nth]. rewrite u8_to_Z. reflexivity.
Qed.

Lemma header_round_trip_witness :
  encode_header 7 1 5 = [x00; x07; x00; x00; x00; x06; x01].
Proof.
  apply (header_round_trip [x00; x07; x00; x00; x00; x06; x01]).
  - reflexivity.
  - reflexivity.
  - vm_compute. discriminate.
Defined.

(** ** Dispatcher: routing and rejections *)

Section DispatcherFacts.

Context {W : Type}.
Implicit Types (srv : Server W) (w : W) (request rest : list byte).

Lemma dispatch_pdu_read srv rest :
  dispatch_pdu srv (FC_READ_HOLDING_REGISTERS :: rest)
  = read_holding_registers srv (FC_READ_HOLDING_REGISTERS :: rest).
Proof. reflexivity. Qed.

Lemma dispatch_pdu_write_single srv rest :
  dispatch_pdu srv (FC_WRITE_SINGLE_REGISTER :: rest)
  = write_single_register srv (FC_WRITE_SINGLE_REGISTER :: rest).
Proof. reflexivity. Qed.

Lemma dispatch_pdu_write_multiple srv rest :
  dispatch_pdu srv (FC_WRITE_MULTIPLE_REGISTERS :: rest)
  = write_multiple_registers srv (FC_WRITE_MULTIPLE_REGISTERS :: rest).
Proof. reflexivity. Qed.

(** A function code other than 0x03, 0x06 and 0x10 is answered with
    "illegal function" and reaches no backend. *)
Lemma dispatch_pdu_unknown srv (b : byte) rest w :
  b <> FC_READ_HOLDING_REGISTERS ->
  b <> FC_WRITE_SINGLE_REGISTER ->
  b <> FC_WRITE_MULTIPLE_REGISTERS ->
  dispatch_pdu srv (b :: rest) w
  = (Ret (exception_pdu b EX_ILLEGAL_FUNCTION), w).
Proof.
  intros H3 H6 H16. unfold dispatch_pdu.
  change (length (b :: rest) <? 1)%nat with false. cbv iota.
  change (at_ (b :: rest) 0) with (to_Z b).
  destruct (Z.eqb_spec (to_Z b) (to_Z FC_READ_HOLDING_REGISTERS)) as [E | _];
    [apply to_Z_inj in E; contradiction | ].
  destruct (Z.eqb_spec (to_Z b) (to_Z FC_WRITE_SINGLE_REGISTER)) as [E | _];
    [apply to_Z_inj in E; contradiction | ].
  destruct (Z.eqb_spec (to_Z b) (to_Z FC_WRITE_MULTIPLE_REGISTERS)) as [E | _];
    [apply to_Z_inj in E; contradiction | ].
  rewrite u8_to_Z. reflexivity.
Qed.

(** Write Single Register in 32-bit mode: rejected before the chain is
    consulted. *)
Lemma write_single_register_w32 srv (a1 a0 v1 v0 : byte) w :
  data_width srv = W32 ->
  dispatch_pdu srv [FC_WRITE_SINGLE_REGISTER; a1; a0; v1; v0] w
  = (Ret [x86; x03], w).
Proof.
  intros Hw. rewrite dispatch_pdu_write_single.
  unfold write_single_register. cbn [length Nat.eqb negb].
  rewrite Hw. reflexivity.
Qed.

(** Write Multiple Registers: each of the three shape checks rejects the
    request before the chain is consulted. *)
Lemma write_multiple_registers_rejects srv rest w :
  let request := FC_WRITE_MULTIPLE_REGISTERS :: rest in
  let quantity := get_u16 (skipn 3 request) in
  let byte_count := at_ request 5 in
  byte_count <> quantity * 2
  \/ quantity mod width_of (data_width srv) <> 0
  \/ Z.of_nat (length request) <> 6 + byte_count ->
  dispatch_pdu srv request w = (Ret [x90; x03], w).
Proof.
  intros request quantity byte_count H.
  unfold request. rewrite dispatch_pdu_write_multiple. fold request.
  unfold write_multiple_registers.
  change (nth 0 request x00) with x10.
  change (exception_pdu x10 EX_ILLEGAL_VALUE) with [x90; x03].
  fold quantity. fold byte_count.
  destruct (length request <? 6)%nat; [reflexivity | ].
  destruct (Z.eqb_spec byte_count (quantity * 2)) as [Hbc | _];
    [ | reflexivity].
  destruct (Z.eqb_spec (quantity mod width_of (data_width srv)) 0)
    as [Hq | _]; [ | reflexivity].
  destruct (Z.eqb_spec (Z.of_nat (length request)) (6 + byte_count))
    as [Hs | _]; [ | reflexivity].
  exfalso. destruct H as [H | [H | H]]; contradiction.
Qed.

End DispatcherFacts.

Lemma logged_server_data_width {W : Type} (srv : Server W) :
  data_width (logged_server srv) = data_width srv.
Proof. reflexivity. Qed.

(** C2 (as stated): function code 0x99 is not answered with F9 01. *)
Lemma unknown_function_0x99_not_F9 :
  dispatch_pdu (example_server W16) [x99] (MemoryRegisterTable_new 256)
  <> (Ret [xf9; x01], MemoryRegisterTable_new 256).
Proof. vm_compute. intros H. discriminate H. Qed.

(** C2 (amended). A request whose PDU carries the unknown function code
    0x99 is answered with the exception PDU 99 01: the function code or-ed
    with 0x80, which for 0x99 is 0x99 itself since that bit is already
    set, then exception code 1 (illegal function); no backend is
    touched. *)
Theorem unknown_function_0x99 {W : Type} (srv : Server W)
    (rest : list byte) (w : W) :
  dispatch_pdu srv (x99 :: rest) w = (Ret [x99; x01], w)
  /\ exception_pdu x99 EX_ILLEGAL_FUNCTION = [x99; x01].
Proof.
  split; [ | reflexivity].
  rewrite dispatch_pdu_unknown by discriminate. reflexivity.
Qed.

(** C6. In 32-bit mode every 5-byte Write Single Register request is
    answered with exception code 3 (illegal value), whatever the chain
    owns, and the backends are left as they were; with every table of the
    chain logging its calls, the log is unchanged: no backend write (or
    read) is invoked. *)
Theorem write_single_register_w32_illegal_value {W : Type} (srv : Server W)
    (a1 a0 v1 v0 : byte) (w : W) (log : list backend_call) :
  data_width srv = W32 ->
  dispatch_pdu srv [x06; a1; a0; v1; v0] w = (Ret [x86; x03], w)
  /\ dispatch_pdu (logged_server srv) [x06; a1; a0; v1; v0] (w, log)
     = (Ret [x86; x03], (w, log))
  /\ exception_pdu x06 EX_ILLEGAL_VALUE = [x86; x03].
Proof.
  intros Hw. split; [ | split].
  - apply write_single_register_w32. assumption.
  - apply write_single_register_w32. assumption.
  - reflexivity.
Qed.

Lemma write_single_register_w32_illegal_value_witness :
  dispatch_pdu (example_server W32) [x06; x00; x01; x12; x34] [5; 6]
  = (Ret [x86; x03], [5; 6])
  /\ dispatch_pdu (logged_server (example_server W32))
       [x06; x00; x01; x12; x34] ([5; 6], [])
     = (Ret [x86; x03], ([5; 6], []))
  /\ exception_pdu x06 EX_ILLEGAL_VALUE = [x86; x03].
Proof.
  apply (write_single_register_w32_illegal_value (example_server W32)).
  reflexivity.
Defined.

(** C7. A Write Multiple Registers request whose byte count differs from
    [quantity*2], or whose quantity is not a multiple of the register
    group size of the configured width (2 in 32-bit mode, 1 in 16-bit
    mode), or whose size differs from [6 + byte_count] (which includes
    every request shorter than 6 bytes), is answered with exception code 3
    (illegal value) and the backends are left as they were; with every
    table of the chain logging its calls, the log is unchanged: no backend
    write is invoked. *)
Theorem write_multiple_registers_malformed {W : Type} (srv : Server W)
    (rest : list byte) (w : W) (log : list backend_call) :
  let request := x10 :: rest in
  let quantity := get_u16 (skipn 3 request) in
  let byte_count := at_ request 5 in
  byte_count <> quantity * 2
  \/ quantity mod width_of (data_width srv) <> 0
  \/ Z.of_nat (length request) <> 6 + byte_count ->
  dispatch_pdu srv request w = (Ret [x90; x03], w)
  /\ dispatch_pdu (logged_server srv) request (w, log)
     = (Ret [x90; x03], (w, log))
  /\ exception_pdu x10 EX_ILLEGAL_VALUE = [x90; x03].
Proof.
  intros request quantity byte_count H. split; [ | split].
  - apply write_multiple_registers_rejects. exact H.
  - apply write_multiple_registers_rejects.
    rewrite logged_server_data_width. exact H.
  - reflexivity.
Qed.

Lemma write_multiple_registers_malformed_witness :
  dispatch_pdu (example_server W16)
    [x10; x00; x00; x00; x02; x04; x00; x01; x00; x02; xff] [7; 8]
  = (Ret [x90; x03], [7; 8])
  /\ dispatch_pdu (logged_server (example_server W16))
       [x10; x00; x00; x00; x02; x04; x00; x01; x00; x02; xff] ([7; 8], [])
     = (Ret [x90; x03], ([7; 8], []))
  /\ exception_pdu x10 EX_ILLEGAL_VALUE = [x90; x03].
Proof.
  apply (write_multiple_registers_malformed (example_server W16)
           [x00; x00; x00; x02; x04; x00; x01; x00; x02; xff]).
  right. right. vm_compute. discriminate.
Defined.

(** ** Dispatcher: the register loops *)

Section Loops.

Context {W : Type}.
Variable srv : Server W.
Implicit Types (w : W) (out : list byte) (fuel : nat).

(** The width is 1 or 2. *)
Lemma width_of_pos (dw : DataWidth) : 1 <= width_of dw <= 2.
Proof. destruct dw; simpl; lia. Qed.

(** The read loop ends, with the output so far, as soon as its condition
    fails: fuel plays no part. *)
Lemma read_loop_exit (fc : byte) (start quantity width : Z) fuel (i : Z)
    out w :
  quantity <= i * width ->
  read_loop srv fc start quantity width fuel i out w = (Ret out, w).
Proof.
  intros H. destruct fuel; [reflexivity | ]. cbn [read_loop].
  destruct (Z.ltb_spec (i * width) quantity); [lia | reflexivity].
Qed.

(** Owned registers advance the read loop, each appending its value. *)
Lemma read_loop_owned (fc : byte) (start quantity width i : Z)
    (values : list Z) w w' :
  reads_owned (register_tables srv) start i values w w' ->
  forall fuel out,
    (forall j, 0 <= j < Z.of_nat (length values) ->
               (i + j) * width < quantity) ->
    read_loop srv fc start quantity width (length values + fuel) i out w
    = read_loop srv fc start quantity width fuel
        (i + Z.of_nat (length values))
        (out ++ flat_map (push_value srv) values) w'.
Proof.
  induction 1 as [i w | i value values w w1 w2 Hread _ IH];
    intros fuel out Hcond.
  - cbn [length flat_map Nat.add]. rewrite Z.add_0_r, app_nil_r. reflexivity.
  - cbn [length Nat.add read_loop].
    destruct (Z.ltb_spec (i * width) quantity) as [_ | Hge].
    + unfold bind at 1. rewrite Hread. rewrite IH.
      * replace (i + 1 + Z.of_nat (length values))
          with (i + Z.of_nat (S (length values))) by lia.
        cbn [flat_map]. rewrite <- app_assoc. reflexivity.
      * intros j Hj. replace (i + 1 + j) with (i + (j + 1)) by lia.
        apply Hcond. cbn [length]. lia.
    + specialize (Hcond 0). cbn [length] in Hcond.
      rewrite Z.add_0_r in Hcond. lia.
Qed.

(** A miss leaves the read loop with "illegal address". *)
Lemma read_loop_miss (fc : byte) (start quantity width : Z) fuel (i : Z)
    out w wm :
  i * width < quantity ->
  chain_read (register_tables srv) (start + i) w = (Ret None, wm) ->
  read_loop srv fc start quantity width (S fuel) i out w
  = (Ret (exception_pdu fc EX_ILLEGAL_ADDRESS), wm).
Proof.
  intros Hlt Hmiss. cbn [read_loop].
  destruct (Z.ltb_spec (i * width) quantity); [ | lia].
  unfold bind. rewrite Hmiss. reflexivity.
Qed.

(** Whatever the backends do, the read loop returns its output extended
    or the "illegal address" PDU, or throws. *)
Lemma read_loop_shape (fc : byte) (start quantity width : Z) fuel :
  forall (i : Z) out w,
    match read_loop srv fc start quantity width fuel i out w with
    | (Ret resp, _) =>
        (exists tail, resp = out ++ tail)
        \/ resp = exception_pdu fc EX_ILLEGAL_ADDRESS
    | (Throw, _) => True
    end.
Proof.
  induction fuel as [ | fuel IH]; intros i out w.
  - left. exists []. symmetry. apply app_nil_r.
  - cbn [read_loop]. destruct (i * width <? quantity).
    + unfold bind at 1.
      destruct (chain_read (register_tables srv) (start + i) w)
        as [[[value | ] | ] w1].
      * specialize (IH (i + 1) (out ++ push_value srv value) w1).
        destruct (read_loop srv fc start quantity width fuel (i + 1)
                    (out ++ push_value srv value) w1) as [[resp | ] w2];
          [ | exact I].
        destruct IH as [[tail ->] | ->]; [left | right; reflexivity].
        exists (push_value srv value ++ tail). symmetry. apply app_assoc.
      * right. reflexivity.
      * exact I.
    + left. exists []. symmetry. apply app_nil_r.
Qed.

(** The write loop ends as soon as its condition fails. *)
Lemma write_loop_exit (fc : byte) (request : list byte)
    (start quantity width : Z) fuel (i : Z) w :
  quantity <= i * width ->
  write_loop srv fc request start quantity width fuel i w = (Ret None, w).
Proof.
  intros H. destruct fuel; [reflexivity | ]. cbn [write_loop].
  destruct (Z.ltb_spec (i * width) quantity); [lia | reflexivity].
Qed.

(** Accepted writes advance the write loop. *)
Lemma write_loop_owned (fc : byte) (request : list byte)
    (start quantity width i : Z) (n : nat) w w' :
  writes_owned (register_tables srv) start
    (request_value srv request width) i n w w' ->
  forall fuel,
    (forall j, 0 <= j < Z.of_nat n -> (i + j) * width < quantity) ->
    write_loop srv fc request start quantity width (n + fuel) i w
    = write_loop srv fc request start quantity width fuel
        (i + Z.of_nat n) w'.
Proof.
  induction 1 as [i w | i n w w1 w2 Hwrite _ IH]; intros fuel Hcond.
  - cbn [Nat.add]. rewrite Z.add_0_r. reflexivity.
  - cbn [Nat.add write_loop].
    destruct (Z.ltb_spec (i * width) quantity) as [_ | Hge].
    + unfold bind at 1. rewrite Hwrite. rewrite IH.
      * replace (i + 1 + Z.of_nat n) with (i + Z.of_nat (S n)) by lia.
        reflexivity.
      * intros j Hj. replace (i + 1 + j) with (i + (j + 1)) by lia.
        apply Hcond. lia.
    + specialize (Hcond 0). rewrite Z.add_0_r in Hcond. lia.
Qed.

(** A miss leaves the write loop, and the function, with "illegal
    address". *)
Lemma write_loop_miss (fc : byte) (request : list byte)
    (start quantity width : Z) fuel (i : Z) w wm :
  i * width < quantity ->
  chain_write (register_tables srv) (start + i)
    (request_value srv request width i) w = (Ret false, wm) ->
  write_loop srv fc request start quantity width (S fuel) i w
  = (Ret (Some (exception_pdu fc EX_ILLEGAL_ADDRESS)), wm).
Proof.
  intros Hlt Hmiss. cbn [write_loop].
  destruct (Z.ltb_spec (i * width) quantity); [ | lia].
  unfold bind. rewrite Hmiss. reflexivity.
Qed.

(** The write loop only ever returns early with "illegal address". *)
Lemma write_loop_shape (fc : byte) (request : list byte)
    (start quantity width : Z) fuel :
  forall (i : Z) w,
    match write_loop srv fc request start quantity width fuel i w with
    | (Ret (Some resp), _) => resp = exception_pdu fc EX_ILLEGAL_ADDRESS
    | _ => True
    end.
Proof.
  induction fuel as [ | fuel IH]; intros i w.
  - exact I.
  - cbn [write_loop]. destruct (i * width <? quantity); [ | exact I].
    unfold bind at 1.
    destruct (chain_write (register_tables srv) (start + i)
                (request_value srv request width i) w) as [[[ | ] | ] w1].
    + apply IH.
    + reflexivity.
    + exact I.
Qed.

(** A Read Holding Registers request that passes the shape checks runs
    the loop from register 0 with the two header bytes as output. *)
Lemma read_holding_registers_valid (s1 s0 q1 q0 : byte) :
  let start := get_u16 [s1; s0] in
  let quantity := get_u16 [q1; q0] in
  let width := width_of (data_width srv) in
  quantity mod width = 0 ->
  quantity <= 128 ->
  dispatch_pdu srv [x03; s1; s0; q1; q0]
  = try_catch
      (read_loop srv x03 start quantity width (Z.to_nat quantity) 0
         [x03; u8 (quantity * 2)])
      (ret (exception_pdu x03 EX_SLAVE_FAILURE)).
Proof.
  intros start quantity width Hmod Hle.
  change (dispatch_pdu srv [x03; s1; s0; q1; q0])
    with (read_holding_registers srv [x03; s1; s0; q1; q0]).
  unfold read_holding_registers. cbn [length Nat.eqb negb nth skipn].
  change (get_u16 [s1; s0; q1; q0]) with start.
  change (get_u16 [q1; q0]) with quantity.
  fold width. rewrite Hmod. cbn [Z.eqb negb].
  destruct (Z.ltb_spec 128 quantity); [lia | reflexivity].
Qed.

(** A Write Multiple Registers request that passes the shape checks runs
    the loop from register 0. *)
Lemma write_multiple_registers_valid (s1 s0 q1 q0 bc : byte)
    (payload : list byte) :
  let request := x10 :: s1 :: s0 :: q1 :: q0 :: bc :: payload in
  let start := get_u16 [s1; s0] in
  let quantity := get_u16 [q1; q0] in
  let width := width_of (data_width srv) in
  to_Z bc = quantity * 2 ->
  quantity mod width = 0 ->
  Z.of_nat (length payload) = to_Z bc ->
  dispatch_pdu srv request
  = try_catch
      (r <- write_loop srv x10 request start quantity width
              (Z.to_nat quantity) 0 ;;
       match r with
       | Some pdu => ret pdu
       | None => ret (x10 :: push_u16 (u16 start) ++ push_u16 (u16 quantity))
       end)
      (ret (exception_pdu x10 EX_SLAVE_FAILURE)).
Proof.
  intros request start quantity width Hbc Hmod Hsize.
  change (dispatch_pdu srv request)
    with (write_multiple_registers srv request).
  unfold write_multiple_registers.
  change (length request <? 6)%nat with false. cbv iota.
  change (nth 0 request x00) with x10.
  change (get_u16 (skipn 1 request)) with start.
  change (get_u16 (skipn 3 request)) with quantity.
  change (at_ request 5) with (to_Z bc).
  fold width. rewrite Hbc, Z.eqb_refl, Hmod. cbn [Z.eqb negb].
  replace (Z.of_nat (length request)) with (6 + quantity * 2).
  - rewrite Z.eqb_refl. reflexivity.
  - unfold request. cbn [length]. lia.
Qed.

End Loops.

(** ** Read Holding Registers *)

(** The byte-count byte holds [quantity*2] up to 127 registers. *)
Lemma byte_count_fits (quantity : Z) :
  0 <= quantity <= 127 -> to_Z (u8 (quantity * 2)) = quantity * 2.
Proof. intros H. rewrite to_Z_u8. apply Z.mod_small. lia. Qed.

(** In 16-bit mode, a request for [quantity <= 128] registers that the
    chain owns is answered with the function code, the byte
    [static_cast<uint8_t>(quantity*2)] and the values, two bytes each,
    in address order. *)
Lemma read_holding_registers_w16_values {W : Type} (srv : Server W)
    (s1 s0 q1 q0 : byte) (values : list Z) (w w' : W) :
  let start := get_u16 [s1; s0] in
  let quantity := get_u16 [q1; q0] in
  data_width srv = W16 ->
  quantity <= 128 ->
  Z.of_nat (length values) = quantity ->
  reads_owned (register_tables srv) start 0 values w w' ->
  dispatch_pdu srv [x03; s1; s0; q1; q0] w
  = (Ret (x03 :: u8 (quantity * 2) :: flat_map push_u16 values), w').
Proof.
  intros start quantity Hw Hle Hlen Hreads.
  rewrite read_holding_registers_valid; fold quantity; fold start;
    [ | rewrite Hw; apply Z.mod_1_r | assumption].
  rewrite Hw. cbn [width_of]. unfold try_catch.
  replace (Z.to_nat quantity) with (length values + 0)%nat by lia.
  rewrite (read_loop_owned srv x03 start quantity 1 0 values w w' Hreads)
    by (intros j Hj; lia).
  rewrite read_loop_exit by lia.
  f_equal. f_equal. cbn [app]. f_equal. f_equal.
  apply flat_map_ext. intros v. unfold push_value. rewrite Hw.
  unfold push_u16 at 1. rewrite u16_idem. reflexivity.
Qed.

(** The end-to-end example of the specification: [03 00 00 00 02] against
    a backend holding 0x0010 at address 0 and 0x0020 at address 1. *)
Example read_two_registers :
  dispatch_pdu (example_server W16) [x03; x00; x00; x00; x02] [16; 32]
  = (Ret [x03; x04; x00; x10; x00; x20], [16; 32]).
Proof. reflexivity. Qed.

(** C1 (failing input). In 16-bit mode the request [03 00 00 00 80] asks
    for 128 registers, all owned by the example backend.  It passes the
    check [quantity > 128] and is answered with the byte-count byte 0x00,
    not [quantity*2 = 256], followed by the 256 value bytes. *)
Theorem read_128_registers_byte_count :
  reads_owned (register_tables (example_server W16)) 0 0 (repeat 0 128)
    (MemoryRegisterTable_new 256) (MemoryRegisterTable_new 256)
  /\ get_u16 [x00; x80] = 128
  /\ dispatch_pdu (example_server W16) [x03; x00; x00; x00; x80]
       (MemoryRegisterTable_new 256)
     = (Ret (x03 :: x00 :: repeat x00 256), MemoryRegisterTable_new 256)
  /\ to_Z x00 <> 128 * 2.
Proof.
  split; [ | split; [reflexivity | split; [vm_compute; reflexivity | discriminate]]].
  cbn [repeat].
  repeat (apply reads_owned_cons with (w1 := MemoryRegisterTable_new 256);
          [vm_compute; reflexivity | ]).
  apply reads_owned_nil.
Qed.

(** C8 (as stated): an unowned address in the range does not by itself
    give "illegal address".  In 16-bit mode, over a table that throws at
    address 0 and owns nothing, the request [03 00 00 00 02] has address 1
    in its range, which no table owns; the read of address 0 throws first
    and the response is [83 04] (slave device failure), not [83 02]. *)
Lemma read_holding_registers_unowned_after_throw :
  get_u16 [x00; x02] mod width_of W16 = 0
  /\ get_u16 [x00; x02] <= 128
  /\ 0 <= 1 < get_u16 [x00; x02]
  /\ (forall w : list Z,
         chain_read
           (register_tables
              (Server_new (Some ThrowingRegisterTable) W16 3600 1000))
           (get_u16 [x00; x00] + 1) w = (Ret None, w))
  /\ dispatch_pdu (Server_new (Some ThrowingRegisterTable) W16 3600 1000)
       [x03; x00; x00; x00; x02] []
     = (Ret [x83; x04], [])
  /\ dispatch_pdu (Server_new (Some ThrowingRegisterTable) W16 3600 1000)
       [x03; x00; x00; x00; x02] []
     <> (Ret [x83; x02], []).
Proof.
  split; [reflexivity | ]. split; [vm_compute; discriminate | ].
  split; [vm_compute; split; [discriminate | reflexivity] | ].
  split; [intros w; reflexivity | ].
  split; [reflexivity | ].
  vm_compute. intros H. discriminate H.
Qed.

(** C8 (amended). A Read Holding Registers request of valid shape (5
    bytes, quantity a multiple of the width and at most 128) whose
    logical register [k], within the range, is owned by no table of the
    chain, the registers before it being answered by the chain (none of
    those reads throws), is answered with exactly the two bytes [83 02]
    (illegal address): none of the values read before the miss is in the
    response. *)
Theorem read_holding_registers_miss {W : Type} (srv : Server W)
    (s1 s0 q1 q0 : byte) (values : list Z) (w wk wm : W) :
  let start := get_u16 [s1; s0] in
  let quantity := get_u16 [q1; q0] in
  let width := width_of (data_width srv) in
  let k := Z.of_nat (length values) in
  quantity mod width = 0 ->
  quantity <= 128 ->
  k * width < quantity ->
  reads_owned (register_tables srv) start 0 values w wk ->
  chain_read (register_tables srv) (start + k) wk = (Ret None, wm) ->
  dispatch_pdu srv [x03; s1; s0; q1; q0] w = (Ret [x83; x02], wm)
  /\ exception_pdu x03 EX_ILLEGAL_ADDRESS = [x83; x02].
Proof.
  intros start quantity width k Hmod Hle Hk Hreads Hmiss.
  split; [ | reflexivity].
  pose proof (width_of_pos (data_width srv)) as Hwidth. fold width in Hwidth.
  rewrite read_holding_registers_valid by assumption.
  fold start. fold quantity. fold width. unfold try_catch.
  replace (Z.to_nat quantity)
    with (length values + S (Z.to_nat quantity - length values - 1))%nat
    by (unfold k in Hk; nia).
  rewrite (read_loop_owned srv x03 start quantity width 0 values w wk Hreads)
    by (intros j Hj; fold k in Hj; nia).
  rewrite Z.add_0_l. fold k.
  rewrite (read_loop_miss srv x03 start quantity width _ k _ wk wm Hk Hmiss).
  reflexivity.
Qed.

Lemma read_holding_registers_miss_witness :
  dispatch_pdu (example_server W16) [x03; x00; x00; x00; x03] [16; 32]
  = (Ret [x83; x02], [16; 32])
  /\ exception_pdu x03 EX_ILLEGAL_ADDRESS = [x83; x02].
Proof.
  apply (read_holding_registers_miss (example_server W16) x00 x00 x00 x03
           [16; 32] [16; 32] [16; 32] [16; 32]).
  - reflexivity.
  - vm_compute. discriminate.
  - reflexivity.
  - apply reads_owned_cons with (w1 := [16; 32]); [reflexivity | ].
    apply reads_owned_cons with (w1 := [16; 32]); [reflexivity | ].
    apply reads_owned_nil.
  - reflexivity.
Defined.

(** ** Write Single Register *)

(** C5. In 16-bit mode a 5-byte Write Single Register request whose write
    some table of the chain accepts is answered with the request PDU
    itself, byte for byte. *)
Theorem write_single_register_echo {W : Type} (srv : Server W)
    (a1 a0 v1 v0 : byte) (w w' : W) :
  data_width srv = W16 ->
  chain_write (register_tables srv) (get_u16 [a1; a0]) (get_u16 [v1; v0]) w
  = (Ret true, w') ->
  dispatch_pdu srv [x06; a1; a0; v1; v0] w
  = (Ret [x06; a1; a0; v1; v0], w').
Proof.
  intros Hw Hwrite.
  change (dispatch_pdu srv [x06; a1; a0; v1; v0])
    with (write_single_register srv [x06; a1; a0; v1; v0]).
  unfold write_single_register. cbn [length Nat.eqb negb skipn].
  rewrite Hw. unfold try_catch, bind.
  change (get_u16 [a1; a0; v1; v0]) with (get_u16 [a1; a0]).
  rewrite Hwrite. reflexivity.
Qed.

Lemma write_single_register_echo_witness :
  dispatch_pdu (example_server W16) [x06; x00; x01; x12; x34] [5; 6]
  = (Ret [x06; x00; x01; x12; x34], [5; 4660]).
Proof.
  apply (write_single_register_echo (example_server W16)); reflexivity.
Defined.

(** ** Write Multiple Registers *)

(** C3. A Write Multiple Registers request of valid shape whose first [k]
    logical registers are accepted by the chain and whose register [k],
    within the range, is owned by no table, is answered with [90 02]
    (illegal address), and the backends are left in the world [wm] that
    the [k] writes and the refused write produced: what was written stays
    written.  (The statement covers every [k], also [k = 0].) *)
Theorem write_multiple_registers_not_rolled_back {W : Type} (srv : Server W)
    (s1 s0 q1 q0 bc : byte) (payload : list byte) (k : nat) (w wk wm : W) :
  let request := x10 :: s1 :: s0 :: q1 :: q0 :: bc :: payload in
  let start := get_u16 [s1; s0] in
  let quantity := get_u16 [q1; q0] in
  let width := width_of (data_width srv) in
  to_Z bc = quantity * 2 ->
  quantity mod width = 0 ->
  Z.of_nat (length payload) = to_Z bc ->
  Z.of_nat k * width < quantity ->
  writes_owned (register_tables srv) start
    (request_value srv request width) 0 k w wk ->
  chain_write (register_tables srv) (start + Z.of_nat k)
    (request_value srv request width (Z.of_nat k)) wk = (Ret false, wm) ->
  dispatch_pdu srv request w = (Ret [x90; x02], wm)
  /\ exception_pdu x10 EX_ILLEGAL_ADDRESS = [x90; x02].
Proof.
  intros request start quantity width Hbc Hmod Hsize Hk Hwrites Hmiss.
  split; [ | reflexivity].
  pose proof (width_of_pos (data_width srv)) as Hwidth. fold width in Hwidth.
  unfold request. rewrite write_multiple_registers_valid by assumption.
  fold request. fold start. fold quantity. fold width.
  unfold try_catch. unfold bind at 1.
  replace (Z.to_nat quantity)
    with (k + S (Z.to_nat quantity - k - 1))%nat by nia.
  rewrite (write_loop_owned srv x10 request start quantity width 0 k w wk
             Hwrites) by (intros j Hj; nia).
  rewrite Z.add_0_l.
  rewrite (write_loop_miss srv x10 request start quantity width _
             (Z.of_nat k) wk wm Hk Hmiss).
  reflexivity.
Qed.

Lemma write_multiple_registers_not_rolled_back_witness :
  dispatch_pdu (example_server W16)
    [x10; x00; x00; x00; x03; x06; x00; x0a; x00; x0b; x00; x0c] [0; 0]
  = (Ret [x90; x02], [10; 11])
  /\ exception_pdu x10 EX_ILLEGAL_ADDRESS = [x90; x02].
Proof.
  apply (write_multiple_registers_not_rolled_back (example_server W16)
           x00 x00 x00 x03 x06 [x00; x0a; x00; x0b; x00; x0c] 2
           [0; 0] [10; 11] [10; 11]).
  - reflexivity.
  - reflexivity.
  - reflexivity.
  - reflexivity.
  - apply writes_owned_cons with (w1 := [10; 0]); [reflexivity | ].
    apply writes_owned_cons with (w1 := [10; 11]); [reflexivity | ].
    apply writes_owned_nil.
  - reflexivity.
Defined.

(** ** Shape of every response *)

Create HintDb komob.

Section ResponseShape.

Context {W : Type}.
Variable srv : Server W.

Lemma exception_response_intro (fc e : byte) :
  In e [EX_ILLEGAL_FUNCTION; EX_ILLEGAL_ADDRESS; EX_ILLEGAL_VALUE;
        EX_SLAVE_FAILURE] ->
  exception_response fc (exception_pdu fc e).
Proof. intros H. exists e. split; [exact H | reflexivity]. Qed.

#[local] Hint Resolve exception_response_intro : komob.
#[local] Hint Extern 1 (In _ _) => cbn; tauto : komob.

Lemma read_holding_registers_shape (fc : byte) (rest : list byte) :
  handler_shape fc (read_holding_registers srv (fc :: rest)).
Proof.
  intros w. unfold read_holding_registers. cbn [nth].
  destruct (negb (length (fc :: rest) =? 5)%nat);
    [unfold ret; eauto 7 with komob | ].
  destruct (negb (_ =? 0)); [unfold ret; eauto 7 with komob | ].
  destruct (128 <? _); [unfold ret; eauto 7 with komob | ].
  unfold try_catch.
  match goal with
  | |- context [read_loop ?s ?f ?st ?q ?wd ?fu ?i ?o w] =>
      pose proof (read_loop_shape s f st q wd fu i o w) as Hshape;
      destruct (read_loop s f st q wd fu i o w) as [[resp | ] w']
  end.
  - exists resp, w'. split; [reflexivity | ].
    destruct Hshape as [[tail ->] | ->]; [left | right; auto with komob].
    exists (u8 (get_u16 (skipn 3 (fc :: rest)) * 2) :: tail). reflexivity.
  - unfold ret. eauto 7 with komob.
Qed.

Lemma write_single_register_shape (fc : byte) (rest : list byte) :
  handler_shape fc (write_single_register srv (fc :: rest)).
Proof.
  intros w. unfold write_single_register. cbn [nth].
  destruct (negb (length (fc :: rest) =? 5)%nat);
    [unfold ret; eauto 7 with komob | ].
  destruct (data_width srv); [ | unfold ret; eauto 7 with komob].
  unfold try_catch, bind.
  destruct (chain_write _ _ _ w) as [[[ | ] | ] w']; cbn [negb]; unfold ret;
    eauto 7 with komob.
Qed.

Lemma write_multiple_registers_shape (fc : byte) (rest : list byte) :
  handler_shape fc (write_multiple_registers srv (fc :: rest)).
Proof.
  intros w. unfold write_multiple_registers. cbn [nth].
  destruct (length (fc :: rest) <? 6)%nat;
    [unfold ret; eauto 7 with komob | ].
  destruct (negb (_ =? _)); [unfold ret; eauto 7 with komob | ].
  destruct (negb (_ =? 0)); [unfold ret; eauto 7 with komob | ].
  destruct (negb (_ =? _)); [unfold ret; eauto 7 with komob | ].
  unfold try_catch. unfold bind at 1.
  match goal with
  | |- context [write_loop ?s ?f ?r ?st ?q ?wd ?fu ?i w] =>
      pose proof (write_loop_shape s f r st q wd fu i w) as Hshape;
      destruct (write_loop s f r st q wd fu i w) as [[[resp | ] | ] w']
  end.
  - subst resp. unfold ret. eauto 7 with komob.
  - unfold ret. eauto 7.
  - unfold ret. eauto 7 with komob.
Qed.

End ResponseShape.

(** C10. For every request PDU, the empty one included, [dispatch_pdu]
    returns (it does not throw) a non-empty response whose first byte is
    the request's function code or that code with bit 0x80 set, 0 standing
    for the function code of an empty request.  The response is either a
    normal response of one of the three implemented functions or an
    exception response, and an exception response is exactly 2 bytes
    long. *)
Theorem dispatch_pdu_response_shape {W : Type} (srv : Server W)
    (request : list byte) (w : W) :
  let function_code := hd x00 request in
  exists (resp : list byte) (w' : W),
    dispatch_pdu srv request w = (Ret resp, w')
    /\ resp <> []
    /\ (hd x00 resp = function_code
        \/ hd x00 resp = u8 (Z.lor (to_Z function_code) 128))
    /\ (normal_response function_code resp
        \/ (exception_response function_code resp /\ length resp = 2%nat)).
Proof.
  intros function_code.
  assert (Hexc : forall resp, exception_response function_code resp ->
            resp <> []
            /\ (hd x00 resp = function_code
                \/ hd x00 resp = u8 (Z.lor (to_Z function_code) 128))
            /\ (normal_response function_code resp
                \/ (exception_response function_code resp
                    /\ length resp = 2%nat))).
  { intros resp Hresp. pose proof Hresp as [e [_ ->]].
    split; [discriminate | ]. split; [right; reflexivity | ].
    right. split; [exact Hresp | reflexivity]. }
  assert (Hhandler : forall m,
            In function_code [FC_READ_HOLDING_REGISTERS;
                              FC_WRITE_SINGLE_REGISTER;
                              FC_WRITE_MULTIPLE_REGISTERS] ->
            handler_shape function_code m ->
            exists resp w',
              m w = (Ret resp, w')
              /\ resp <> []
              /\ (hd x00 resp = function_code
                  \/ hd x00 resp = u8 (Z.lor (to_Z function_code) 128))
              /\ (normal_response function_code resp
                  \/ (exception_response function_code resp
                      /\ length resp = 2%nat))).
  { intros m Hfc Hm. destruct (Hm w) as [resp [w' [Hrun Hshape]]].
    exists resp, w'. split; [exact Hrun | ].
    destruct Hshape as [[tail ->] | Hresp]; [ | apply Hexc; exact Hresp].
    split; [discriminate | ]. split; [left; reflexivity | ].
    left. split; [exact Hfc | exists tail; reflexivity]. }
  destruct request as [ | b rest].
  - exists (exception_pdu x00 EX_ILLEGAL_FUNCTION), w.
    split; [reflexivity | ]. apply Hexc.
    apply exception_response_intro. cbn. tauto.
  - cbn [hd] in function_code. subst function_code.
    unfold dispatch_pdu.
    change (length (b :: rest) <? 1)%nat with false. cbv iota.
    change (at_ (b :: rest) 0) with (to_Z b).
    destruct (Z.eqb_spec (to_Z b) (to_Z FC_READ_HOLDING_REGISTERS))
      as [E | _].
    { apply to_Z_inj in E. subst b. apply Hhandler; [cbn; tauto | ].
      apply read_holding_registers_shape. }
    destruct (Z.eqb_spec (to_Z b) (to_Z FC_WRITE_SINGLE_REGISTER))
      as [E | _].
    { apply to_Z_inj in E. subst b. apply Hhandler; [cbn; tauto | ].
      apply write_single_register_shape. }
    destruct (Z.eqb_spec (to_Z b) (to_Z FC_WRITE_MULTIPLE_REGISTERS))
      as [E | _].
    { apply to_Z_inj in E. subst b. apply Hhandler; [cbn; tauto | ].
      apply write_multiple_registers_shape. }
    rewrite u8_to_Z.
    exists (exception_pdu b EX_ILLEGAL_FUNCTION), w.
    split; [reflexivity | ]. apply Hexc.
    apply exception_response_intro. cbn. tauto.
Qed.

(** ** Connection handler *)

(** Reading sends nothing. *)
Lemma read_exact_sent (fd fd' : Socket) (n : nat) (r : option (list byte)) :
  read_exact fd n = (r, fd') ->
  sent fd' = sent fd /\ outbound fd' = outbound fd.
Proof.
  unfold read_exact. destruct (read_exact_loop (inbound fd) n []) as [r' s].
  intros H. injection H as _ <-. split; reflexivity.
Qed.

(** A connection on which the 7 header bytes do not arrive is closed
    without a response. *)
Lemma handle_single_request_short_header {W : Type} (srv : Server W)
    (fd fd' : Socket) (w : W) :
  read_exact fd 7 = (None, fd') ->
  handle_single_request srv fd w = (false, fd', w) /\ sent fd' = sent fd.
Proof.
  intros Hread. unfold handle_single_request. rewrite Hread.
  split; [reflexivity | ]. apply (read_exact_sent fd fd' 7 None Hread).
Qed.

(** The last testable property of the specification: a peer that sends 4
    bytes and closes gets no response. *)
Example four_bytes_then_close :
  handle_single_request (example_server W16)
    {| inbound := [RecvData [x00; x01; x00; x00]; RecvData []];
       outbound := []; sent := [] |} [16; 32]
  = (false, {| inbound := []; outbound := []; sent := [] |}, [16; 32]).
Proof. reflexivity. Qed.

(** C4. When the 7 header bytes have been read and the header has a
    protocol id other than 0, or a length below 2, or a PDU length
    [length - 1] above 256, [handle_single_request] returns [false] (the
    connection is to be closed) right after the header: nothing is sent
    on the socket, so the peer gets no exception PDU, and no backend is
    touched. *)
Theorem handle_single_request_transport_fatal {W : Type} (srv : Server W)
    (fd fd' : Socket) (header : list byte) (w : W) :
  read_exact fd 7 = (Some header, fd') ->
  MBAP.protocol_id (decode_header header) <> 0
  \/ MBAP.length (decode_header header) < 2
  \/ MBAP.length (decode_header header) - 1 > 256 ->
  handle_single_request srv fd w = (false, fd', w)
  /\ sent fd' = sent fd.
Proof.
  intros Hread Hbad.
  split; [ | apply (read_exact_sent fd fd' 7 (Some header) Hread)].
  unfold handle_single_request. rewrite Hread.
  destruct (Z.eqb_spec (MBAP.protocol_id (decode_header header)) 0)
    as [Hproto | _]; [ | reflexivity].
  cbn [negb].
  destruct (Z.ltb_spec (MBAP.length (decode_header header)) 2)
    as [_ | Hlen]; [reflexivity | ].
  destruct (Z.ltb_spec 1 (MBAP.length (decode_header header)));
    [ | lia].
  destruct (Z.ltb_spec 256 (MBAP.length (decode_header header) - 1))
    as [_ | Hsmall]; [reflexivity | ].
  exfalso. destruct Hbad as [H1 | [H1 | H1]]; [contradiction | lia | lia].
Qed.

Lemma handle_single_request_transport_fatal_witness :
  handle_single_request (example_server W16)
    {| inbound := [RecvData [x00; x01; x00; x00; x01; x02; x01; x03]];
       outbound := []; sent := [] |} [16; 32]
  = (false, {| inbound := [RecvData [x03]]; outbound := []; sent := [] |},
     [16; 32])
  /\ sent {| inbound := [RecvData [x03]]; outbound := []; sent := [] |}
     = sent {| inbound := [RecvData [x00; x01; x00; x00; x01; x02; x01; x03]];
               outbound := []; sent := [] |}.
Proof.
  apply (handle_single_request_transport_fatal (example_server W16)
           {| inbound := [RecvData [x00; x01; x00; x00; x01; x02; x01; x03]];
              outbound := []; sent := [] |}
           {| inbound := [RecvData [x03]]; outbound := []; sent := [] |}
           [x00; x01; x00; x00; x01; x02; x01]).
  - reflexivity.
  - right. right. vm_compute. reflexivity.
Defined.

(** ** Adequacy of the embedding *)

Section Adequacy.

Context {W : Type}.
Variable srv : Server W.

(** The read loop does not depend on its fuel once the fuel covers the
    distance to [quantity]: the [Z.to_nat quantity] iterations given by
    [read_holding_registers] are never used up before the loop condition
    fails. *)
Lemma read_loop_fuel (fc : byte) (start quantity width : Z) :
  0 < width ->
  forall (fuel1 fuel2 : nat) (i : Z) (out : list byte) (w : W),
    quantity - i * width <= Z.of_nat fuel1 ->
    quantity - i * width <= Z.of_nat fuel2 ->
    read_loop srv fc start quantity width fuel1 i out w
    = read_loop srv fc start quantity width fuel2 i out w.
Proof.
  intros Hwidth.
  induction fuel1 as [ | fuel1 IH]; intros fuel2 i out w H1 H2.
  - rewrite !read_loop_exit by lia. reflexivity.
  - destruct fuel2 as [ | fuel2]; [rewrite !read_loop_exit by lia; reflexivity | ].
    cbn [read_loop]. destruct (i * width <? quantity); [ | reflexivity].
    unfold bind.
    destruct (chain_read (register_tables srv) (start + i) w)
      as [[[value | ] | ] w1]; try reflexivity.
    apply IH; lia.
Qed.

(** The same for the write loop. *)
Lemma write_loop_fuel (fc : byte) (request : list byte)
    (start quantity width : Z) :
  0 < width ->
  forall (fuel1 fuel2 : nat) (i : Z) (w : W),
    quantity - i * width <= Z.of_nat fuel1 ->
    quantity - i * width <= Z.of_nat fuel2 ->
    write_loop srv fc request start quantity width fuel1 i w
    = write_loop srv fc request start quantity width fuel2 i w.
Proof.
  intros Hwidth.
  induction fuel1 as [ | fuel1 IH]; intros fuel2 i w H1 H2.
  - rewrite !write_loop_exit by lia. reflexivity.
  - destruct fuel2 as [ | fuel2]; [rewrite !write_loop_exit by lia; reflexivity | ].
    cbn [write_loop]. destruct (i * width <? quantity); [ | reflexivity].
    unfold bind.
    destruct (chain_write (register_tables srv) (start + i)
                (request_value srv request width i) w)
      as [[[ | ] | ] w1]; try reflexivity.
    apply IH; lia.
Qed.

(** First match wins, on both paths. *)
Lemma chain_read_answered (tables : list (RegisterTable W)) (address : Z)
    (value : Z) (w w' : W) :
  chain_read tables address w = (Ret (Some value), w') ->
  exists (t : RegisterTable W) (w0 : W),
    In t tables /\ read t address w0 = (Ret (Some value), w').
Proof.
  revert w. induction tables as [ | t rest IH]; intros w H.
  - discriminate H.
  - cbn [chain_read] in H. unfold bind in H.
    destruct (read t address w) as [[[v | ] | ] w1] eqn:E.
    + injection H as -> ->. exists t, w. split; [left; reflexivity | exact E].
    + destruct (IH w1 H) as [t' [w0 [Hin Hr]]].
      exists t', w0. split; [right; exact Hin | exact Hr].
    + discriminate H.
Qed.

Lemma chain_write_accepted (tables : list (RegisterTable W))
    (address value : Z) (w w' : W) :
  chain_write tables address value w = (Ret true, w') ->
  exists (t : RegisterTable W) (w0 : W),
    In t tables /\ write t address value w0 = (Ret true, w').
Proof.
  revert w. induction tables as [ | t rest IH]; intros w H.
  - discriminate H.
  - cbn [chain_write] in H. unfold bind in H.
    destruct (write t address value w) as [[[ | ] | ] w1] eqn:E.
    + injection H as ->. exists t, w. split; [left; reflexivity | exact E].
    + destruct (IH w1 H) as [t' [w0 [Hin Hr]]].
      exists t', w0. split; [right; exact Hin | exact Hr].
    + discriminate H.
Qed.

(** With a chain that does not throw, a valid read whose range holds a
    register that no table owns, in whatever world, is answered with
    [83 02]: the loop stops at the first miss, at that register or
    before. *)
Lemma read_holding_registers_unowned (s1 s0 q1 q0 : byte) (k : Z) (w : W) :
  let start := get_u16 [s1; s0] in
  let quantity := get_u16 [q1; q0] in
  let width := width_of (data_width srv) in
  quantity mod width = 0 ->
  quantity <= 128 ->
  (forall a w0, exists r w1,
      chain_read (register_tables srv) a w0 = (Ret r, w1)) ->
  0 <= k ->
  k * width < quantity ->
  (forall w0, exists w1,
      chain_read (register_tables srv) (start + k) w0 = (Ret None, w1)) ->
  exists w', dispatch_pdu srv [x03; s1; s0; q1; q0] w = (Ret [x83; x02], w').
Proof.
  intros start quantity width Hmod Hle Hnothrow Hk0 Hk Hunowned.
  pose proof (width_of_pos (data_width srv)) as Hwidth. fold width in Hwidth.
  rewrite read_holding_registers_valid by assumption.
  fold start. fold quantity. fold width. unfold try_catch.
  assert (Hloop : forall (n : nat) (i : Z) (fuel : nat) (out : list byte) (w0 : W),
             0 <= i -> k = i + Z.of_nat n -> (n < fuel)%nat ->
             exists w',
               read_loop srv x03 start quantity width fuel i out w0
               = (Ret [x83; x02], w')).
  { induction n as [ | n IH]; intros i fuel out w0 Hi Hki Hfuel;
      (destruct fuel as [ | fuel]; [lia | ]); cbn [read_loop];
      (destruct (Z.ltb_spec (i * width) quantity); [ | nia]); unfold bind.
    - replace i with k by lia. destruct (Hunowned w0) as [w1 ->].
      exists w1. reflexivity.
    - destruct (Hnothrow (start + i) w0) as [[value | ] [w1 ->]].
      + apply IH; lia.
      + exists w1. reflexivity. }
  destruct (Hloop (Z.to_nat k) 0 (Z.to_nat quantity) [x03; u8 (quantity * 2)] w)
    as [w' ->]; [lia | lia | nia | ].
  exists w'. reflexivity.
Qed.

End Adequacy.

(** The [unsigned] arithmetic of the handlers never wraps: its operands
    are 16-bit fields and loop counters bounded by them. *)
Lemma unsigned_arithmetic_in_range (start quantity width i : Z) :
  0 <= start < 65536 ->
  0 <= quantity < 65536 ->
  1 <= width <= 2 ->
  0 <= i ->
  i * width < quantity ->
  u32 (start + i) = start + i
  /\ u32 (i * width) = i * width
  /\ u32 (6 + 2 * i * width) = 6 + 2 * i * width
  /\ u32 (quantity * 2) = quantity * 2
  /\ u32 (i + 1) = i + 1.
Proof.
  intros Hs Hq Hw Hi Hlt. unfold u32.
  repeat split; apply Z.mod_small; nia.
Qed.

(** Every register value that [write_multiple_registers] decodes lies
    inside the request. *)
Lemma request_value_in_bounds (size quantity width i : Z) :
  size = 6 + quantity * 2 ->
  1 <= width <= 2 ->
  quantity mod width = 0 ->
  0 <= i ->
  i * width < quantity ->
  6 + 2 * i * width + 2 * width <= size.
Proof.
  intros Hsize Hw Hmod Hi Hlt.
  assert (Hcases : width = 1 \/ width = 2) by lia.
  destruct Hcases as [-> | ->]; [lia | ].
  pose proof (Z.div_mod quantity 2 ltac:(lia)) as Hdiv. lia.
Qed.

(** The example backend owns exactly the addresses below its size. *)
Lemma MemoryRegisterTable_read (registers : list Z) (address : Z) :
  read MemoryRegisterTable address registers
  = (Ret (if Z.of_nat (length registers) <=? address then None
          else Some (nth (Z.to_nat address) registers 0)), registers).
Proof.
  cbn [read MemoryRegisterTable].
  destruct (Z.of_nat (length registers) <=? address); reflexivity.
Qed.

(** A second end-to-end run, in 32-bit mode: two 32-bit registers are
    written from 8 payload bytes and read back. *)
Example write_then_read_w32 :
  dispatch_pdu (example_server W32)
    [x10; x00; x00; x00; x04; x08; x00; x01; x00; x02; x00; x03; x00; x04]
    [0; 0]
  = (Ret [x10; x00; x00; x00; x04], [65538; 196612])
  /\ dispatch_pdu (example_server W32) [x03; x00; x00; x00; x04]
       [65538; 196612]
     = (Ret [x03; x08; x00; x01; x00; x02; x00; x03; x00; x04],
        [65538; 196612]).
Proof. split; reflexivity. Qed.

(** One exchange over a socket: the header arrives in two pieces around an
    interrupted call, the response header repeats the request's
    transaction id and unit id, and a trailing byte stays unread. *)
Example one_exchange :
  handle_single_request (example_server W16)
    {| inbound := [RecvData [x00; x07; x00; x00]; RecvEINTR;
                   RecvData [x00; x06; x01; x06; x00; x01; x00; x04; xaa]];
       outbound := [SendAccept 3]; sent := [] |} [16; 32; 5]
  = (true,
     {| inbound := [RecvData [xaa]]; outbound := [];
        sent := [x00; x07; x00; x00; x00; x06; x01;
                 x06; x00; x01; x00; x04] |},
     [16; 4; 5]).
Proof. reflexivity. Qed.

(** * Further properties of the code *)

(** ** Frame codec: round trips *)

Lemma lor_mul_pow2_low (q y n : Z) :
  0 <= n -> 0 <= y < 2 ^ n -> Z.lor (q * 2 ^ n) y = q * 2 ^ n + y.
Proof.
  intros Hn Hy. rewrite <- Z.shiftl_mul_pow2 by assumption.
  rewrite lor_shiftl_low by assumption.
  rewrite Z.shiftl_mul_pow2 by assumption. reflexivity.
Qed.

Lemma get_u16_push_u16 (v : Z) (rest : list byte) :
  get_u16 (push_u16 v ++ rest) = u16 v.
Proof.
  unfold push_u16. cbn [app]. rewrite get_u16_cons, !to_Z_u8.
  pose proof (u16_range v) as Hv. set (x := u16 v) in *. clearbody x.
  change 255 with (Z.ones 8). rewrite !Z.land_ones by lia.
  rewrite Z.shiftr_div_pow2 by lia. change (2 ^ 8) with 256.
  rewrite !Z.mod_mod by lia.
  Z.to_euclidean_division_equations. lia.
Qed.

(** X1. The 16-bit big-endian helpers are inverse to each other: the two
    bytes that [get_u16] reads are the bytes that [push_u16] writes for
    its result, and [get_u16] reads back what [push_u16] wrote, which is
    the value cut to 16 bits. *)
Theorem u16_codec_round_trip :
  (forall (a b : byte) (rest : list byte),
      push_u16 (get_u16 (a :: b :: rest)) = [a; b])
  /\ (forall (v : Z) (rest : list byte),
         get_u16 (push_u16 v ++ rest) = u16 v).
Proof.
  split.
  - intros a b rest. apply push_u16_get_u16.
  - intros v rest. apply get_u16_push_u16.
Qed.

Lemma u32_range (z : Z) : 0 <= u32 z < 4294967296.
Proof. unfold u32. apply Z.mod_pos_bound. lia. Qed.

Lemma get_u32_cons (a b c d : byte) (rest : list byte) :
  get_u32 (a :: b :: c :: d :: rest)
  = to_Z a * 16777216 + to_Z b * 65536 + to_Z c * 256 + to_Z d.
Proof.
  unfold get_u32, at_. cbn [nth].
  pose proof (to_Z_range a) as Ha. pose proof (to_Z_range b) as Hb.
  pose proof (to_Z_range c) as Hc. pose proof (to_Z_range d) as Hd.
  set (A := to_Z a) in *. set (B := to_Z b) in *.
  set (C := to_Z c) in *. set (D := to_Z d) in *.
  clearbody A B C D.
  rewrite !Z.shiftl_mul_pow2 by lia.
  assert (E1 : Z.lor (A * 2 ^ 24) (B * 2 ^ 16) = (A * 256 + B) * 2 ^ 16).
  { rewrite lor_mul_pow2_low.
    - change (2 ^ 24) with 16777216. change (2 ^ 16) with 65536. lia.
    - lia.
    - change (2 ^ 24) with 16777216. change (2 ^ 16) with 65536. lia. }
  rewrite E1.
  assert (E2 : Z.lor ((A * 256 + B) * 2 ^ 16) (C * 2 ^ 8)
               = ((A * 256 + B) * 256 + C) * 2 ^ 8).
  { rewrite lor_mul_pow2_low.
    - change (2 ^ 16) with 65536. change (2 ^ 8) with 256. lia.
    - lia.
    - change (2 ^ 16) with 65536. change (2 ^ 8) with 256. lia. }
  rewrite E2.
  rewrite lor_mul_pow2_low by (change (2 ^ 8) with 256; lia).
  change (2 ^ 8) with 256.
  unfold u32. rewrite Z.mod_small by lia. lia.
Qed.

Lemma u8_eq (z : Z) (b : byte) : z mod 256 = to_Z b -> u8 z = b.
Proof. intros H. rewrite <- u8_mod, H. apply u8_to_Z. Qed.

(** [push_u32] splits a 32-bit value into its four bytes. *)
Lemma push_u32_bytes (a b c d : byte) :
  push_u32 (to_Z a * 16777216 + to_Z b * 65536 + to_Z c * 256 + to_Z d)
  = [a; b; c; d].
Proof.
  pose proof (to_Z_range a) as Ha. pose proof (to_Z_range b) as Hb.
  pose proof (to_Z_range c) as Hc. pose proof (to_Z_range d) as Hd.
  unfold push_u32, u32.
  rewrite (Z.mod_small _ 4294967296) by lia.
  change 255 with (Z.ones 8). rewrite !Z.land_ones by lia.
  rewrite !Z.shiftr_div_pow2 by lia.
  change (2 ^ 24) with 16777216. change (2 ^ 16) with 65536.
  change (2 ^ 8) with 256.
  assert (Hbyte : forall z (x : byte), z mod 256 = to_Z x -> u8 (z mod 256) = x)
    by (intros z x Hz; rewrite u8_mod; apply u8_eq; exact Hz).
  f_equal; [ | f_equal; [ | f_equal; [ | f_equal]]];
    apply Hbyte; Z.to_euclidean_division_equations; lia.
Qed.

Lemma get_u32_push_u32 (v : Z) (rest : list byte) :
  get_u32 (push_u32 v ++ rest) = u32 v.
Proof.
  unfold push_u32. cbn [app]. rewrite get_u32_cons, !to_Z_u8.
  pose proof (u32_range v) as Hv. set (x := u32 v) in *. clearbody x.
  change 255 with (Z.ones 8). rewrite !Z.land_ones by lia.
  rewrite !Z.shiftr_div_pow2 by lia.
  change (2 ^ 24) with 16777216. change (2 ^ 16) with 65536.
  change (2 ^ 8) with 256.
  rewrite !Z.mod_mod by lia.
  Z.to_euclidean_division_equations. lia.
Qed.

(** X2. The 32-bit big-endian helpers are inverse to each other in the
    same way. *)
Theorem u32_codec_round_trip :
  (forall (a b c d : byte) (rest : list byte),
      push_u32 (get_u32 (a :: b :: c :: d :: rest)) = [a; b; c; d])
  /\ (forall (v : Z) (rest : list byte),
         get_u32 (push_u32 v ++ rest) = u32 v).
Proof.
  split.
  - intros a b c d rest. rewrite get_u32_cons. apply push_u32_bytes.
  - intros v rest. apply get_u32_push_u32.
Qed.

(** X3. An exception PDU is two bytes: the function code with bit 0x80
    set and its other seven bits kept, then the exception code. *)
Theorem exception_pdu_flag (function_code exception_code : byte) :
  exists first : byte,
    exception_pdu function_code exception_code = [first; exception_code]
    /\ Z.testbit (to_Z first) 7 = true
    /\ Z.land (to_Z first) 127 = Z.land (to_Z function_code) 127.
Proof.
  exists (u8 (Z.lor (to_Z function_code) 128)).
  split; [reflexivity | ].
  destruct function_code; split; reflexivity.
Qed.

(** ** Dispatcher: rejections that reach no backend *)

Lemma read_holding_registers_rejects {W : Type} (srv : Server W)
    (rest : list byte) (w : W) :
  let request := x03 :: rest in
  let quantity := get_u16 (skipn 3 request) in
  length request <> 5%nat
  \/ quantity mod width_of (data_width srv) <> 0
  \/ 128 < quantity ->
  dispatch_pdu srv request w = (Ret [x83; x03], w).
Proof.
  intros request quantity H.
  change (dispatch_pdu srv request) with (read_holding_registers srv request).
  unfold read_holding_registers.
  change (nth 0 request x00) with x03.
  change (exception_pdu x03 EX_ILLEGAL_VALUE) with [x83; x03].
  fold quantity.
  destruct (Nat.eqb_spec (length request) 5) as [Hlen | _]; [ | reflexivity].
  cbn [negb].
  destruct (Z.eqb_spec (quantity mod width_of (data_width srv)) 0)
    as [Hmod | _]; [ | reflexivity].
  cbn [negb].
  destruct (Z.ltb_spec 128 quantity) as [_ | Hle]; [reflexivity | ].
  exfalso. destruct H as [H | [H | H]]; [contradiction | contradiction | lia].
Qed.

(** X4. A Read Holding Registers request that is not 5 bytes long, or
    whose quantity is not a multiple of the register group size of the
    configured width, or whose quantity exceeds 128, is answered with
    [83 03] (illegal value); the backends are left as they were and, with
    logging tables, the call log is unchanged: no backend is read. *)
Theorem read_holding_registers_malformed {W : Type} (srv : Server W)
    (rest : list byte) (w : W) (log : list backend_call) :
  let request := x03 :: rest in
  let quantity := get_u16 (skipn 3 request) in
  length request <> 5%nat
  \/ quantity mod width_of (data_width srv) <> 0
  \/ 128 < quantity ->
  dispatch_pdu srv request w = (Ret [x83; x03], w)
  /\ dispatch_pdu (logged_server srv) request (w, log)
     = (Ret [x83; x03], (w, log)).
Proof.
  intros request quantity H. split.
  - apply read_holding_registers_rejects. exact H.
  - apply read_holding_registers_rejects.
    rewrite logged_server_data_width. exact H.
Qed.

Lemma read_holding_registers_malformed_witness :
  dispatch_pdu (example_server W32) [x03; x00; x00; x00; x03] [7; 8]
  = (Ret [x83; x03], [7; 8])
  /\ dispatch_pdu (logged_server (example_server W32))
       [x03; x00; x00; x00; x03] ([7; 8], [])
     = (Ret [x83; x03], ([7; 8], [])).
Proof.
  apply (read_holding_registers_malformed (example_server W32)
           [x00; x00; x00; x03]).
  right. left. vm_compute. discriminate.
Defined.

Lemma write_single_register_rejects_size {W : Type} (srv : Server W)
    (rest : list byte) (w : W) :
  length rest <> 4%nat ->
  dispatch_pdu srv (x06 :: rest) w = (Ret [x86; x03], w).
Proof.
  intros H.
  change (dispatch_pdu srv (x06 :: rest))
    with (write_single_register srv (x06 :: rest)).
  unfold write_single_register.
  destruct (Nat.eqb_spec (length (x06 :: rest)) 5) as [Hlen | _];
    [ | reflexivity].
  cbn [length] in Hlen. lia.
Qed.

(** X5. A Write Single Register request that is not 5 bytes long is
    answered with [86 03] (illegal value) in either width, and no backend
    is called. *)
Theorem write_single_register_wrong_size {W : Type} (srv : Server W)
    (rest : list byte) (w : W) (log : list backend_call) :
  length rest <> 4%nat ->
  dispatch_pdu srv (x06 :: rest) w = (Ret [x86; x03], w)
  /\ dispatch_pdu (logged_server srv) (x06 :: rest) (w, log)
     = (Ret [x86; x03], (w, log)).
Proof.
  intros H. split; apply write_single_register_rejects_size; exact H.
Qed.

Lemma write_single_register_wrong_size_witness :
  dispatch_pdu (example_server W16) [x06; x00; x01; x12] [7; 8]
  = (Ret [x86; x03], [7; 8])
  /\ dispatch_pdu (logged_server (example_server W16))
       [x06; x00; x01; x12] ([7; 8], [])
     = (Ret [x86; x03], ([7; 8], [])).
Proof.
  apply (write_single_register_wrong_size (example_server W16)
           [x00; x01; x12]).
  cbn [length]. discriminate.
Defined.

(** X6. The empty request is answered with [80 01] and a request with any
    function code other than 0x03, 0x06 and 0x10 with that code or-ed with
    0x80 and exception code 1 (illegal function), whatever follows the
    function code; no backend is called. *)
Theorem unknown_function_illegal {W : Type} (srv : Server W) (b : byte)
    (rest : list byte) (w : W) (log : list backend_call) :
  b <> x03 -> b <> x06 -> b <> x10 ->
  dispatch_pdu srv [] w = (Ret [x80; x01], w)
  /\ dispatch_pdu srv (b :: rest) w
     = (Ret [u8 (Z.lor (to_Z b) 128); x01], w)
  /\ dispatch_pdu (logged_server srv) (b :: rest) (w, log)
     = (Ret [u8 (Z.lor (to_Z b) 128); x01], (w, log)).
Proof.
  intros H3 H6 H16. split; [reflexivity | ].
  split; apply dispatch_pdu_unknown; assumption.
Qed.

Lemma unknown_function_illegal_witness :
  dispatch_pdu (example_server W16) [] [7; 8] = (Ret [x80; x01], [7; 8])
  /\ dispatch_pdu (example_server W16) [x04; x00; x00; x00; x01] [7; 8]
     = (Ret [x84; x01], [7; 8])
  /\ dispatch_pdu (logged_server (example_server W16))
       [x04; x00; x00; x00; x01] ([7; 8], [])
     = (Ret [x84; x01], ([7; 8], [])).
Proof.
  apply (unknown_function_illegal (example_server W16) x04
           [x00; x00; x00; x01]); discriminate.
Defined.

(** ** Dispatcher: outcomes of the backend calls *)

Section BackendOutcomes.

Context {W : Type}.
Variable srv : Server W.

(** A throwing backend leaves the read loop by the exception. *)
Lemma read_loop_throw (fc : byte) (start quantity width : Z) (fuel : nat)
    (i : Z) (out : list byte) (w wt : W) :
  i * width < quantity ->
  chain_read (register_tables srv) (start + i) w = (Throw, wt) ->
  read_loop srv fc start quantity width (S fuel) i out w = (Throw, wt).
Proof.
  intros Hlt Hthrow. cbn [read_loop].
  destruct (Z.ltb_spec (i * width) quantity); [ | lia].
  unfold bind. rewrite Hthrow. reflexivity.
Qed.

Lemma write_loop_throw (fc : byte) (request : list byte)
    (start quantity width : Z) (fuel : nat) (i : Z) (w wt : W) :
  i * width < quantity ->
  chain_write (register_tables srv) (start + i)
    (request_value srv request width i) w = (Throw, wt) ->
  write_loop srv fc request start quantity width (S fuel) i w = (Throw, wt).
Proof.
  intros Hlt Hthrow. cbn [write_loop].
  destruct (Z.ltb_spec (i * width) quantity); [ | lia].
  unfold bind. rewrite Hthrow. reflexivity.
Qed.

Lemma push_value_length (value : Z) :
  Z.of_nat (length (push_value srv value)) = 2 * width_of (data_width srv).
Proof. unfold push_value. destruct (data_width srv); reflexivity. Qed.

(** The read loop adds [2 * width] bytes per register, up to
    [2 * quantity] in all, unless it returns the 2-byte exception. *)
Lemma read_loop_length (fc : byte) (start quantity : Z) (fuel : nat) :
  let width := width_of (data_width srv) in
  quantity mod width = 0 ->
  forall (i : Z) (out : list byte) (w : W),
    0 <= i -> i * width <= quantity ->
    match read_loop srv fc start quantity width fuel i out w with
    | (Ret resp, _) =>
        Z.of_nat (length resp)
        <= Z.of_nat (length out) + 2 * (quantity - i * width)
        \/ length resp = 2%nat
    | (Throw, _) => True
    end.
Proof.
  intros width Hmod.
  pose proof (width_of_pos (data_width srv)) as Hwidth. fold width in Hwidth.
  induction fuel as [ | fuel IH]; intros i out w Hi Hle.
  - cbn [read_loop]. unfold ret. left. lia.
  - cbn [read_loop].
    destruct (Z.ltb_spec (i * width) quantity) as [Hlt | Hge];
      [ | unfold ret; left; lia].
    unfold bind at 1.
    destruct (chain_read (register_tables srv) (start + i) w)
      as [[[value | ] | ] w1]; [ | right; reflexivity | exact I].
    assert (Hnext : (i + 1) * width <= quantity).
    { assert (Hcases : width = 1 \/ width = 2) by lia.
      destruct Hcases as [E | E]; rewrite E in *; [lia | ].
      pose proof (Z.div_mod quantity 2 ltac:(lia)). lia. }
    specialize (IH (i + 1) (out ++ push_value srv value) w1
                  ltac:(lia) Hnext).
    destruct (read_loop srv fc start quantity width fuel (i + 1)
                (out ++ push_value srv value) w1) as [[resp | ] w2];
      [ | exact I].
    destruct IH as [IH | IH]; [left | right; exact IH].
    rewrite length_app, Nat2Z.inj_add, push_value_length in IH.
    fold width in IH. lia.
Qed.

End BackendOutcomes.

(** The run of a valid read whose registers are all owned. *)
Lemma read_holding_registers_run {W : Type} (srv : Server W)
    (s1 s0 q1 q0 : byte) (values : list Z) (w w' : W) :
  let start := get_u16 [s1; s0] in
  let quantity := get_u16 [q1; q0] in
  let width := width_of (data_width srv) in
  quantity <= 128 ->
  Z.of_nat (length values) * width = quantity ->
  reads_owned (register_tables srv) start 0 values w w' ->
  dispatch_pdu srv [x03; s1; s0; q1; q0] w
  = (Ret (x03 :: u8 (quantity * 2) :: flat_map (push_value srv) values), w')
  /\ Z.of_nat (length (flat_map (push_value srv) values)) = 2 * quantity.
Proof.
  intros start quantity width Hle Hlen Hreads.
  pose proof (width_of_pos (data_width srv)) as Hwidth. fold width in Hwidth.
  split.
  - rewrite read_holding_registers_valid; fold start; fold quantity;
      fold width; [ | rewrite <- Hlen; apply Z.mod_mul; lia | assumption].
    unfold try_catch.
    replace (Z.to_nat quantity)
      with (length values + (Z.to_nat quantity - length values))%nat by nia.
    rewrite (read_loop_owned srv x03 start quantity width 0 values w w'
               Hreads) by (intros j Hj; nia).
    rewrite read_loop_exit by lia. reflexivity.
  - rewrite <- Hlen. clear. induction values as [ | v values IH].
    + reflexivity.
    + cbn [flat_map length]. rewrite length_app, Nat2Z.inj_add.
      rewrite push_value_length. fold width. lia.
Qed.



(** X8. When a backend throws on logical register [k] of a valid Read
    Holding Registers request, the registers before it having been read,
    the response is exactly [83 04] (slave device failure): the exception
    does not leave the dispatcher and no value read so far is returned. *)
Theorem read_holding_registers_throw {W : Type} (srv : Server W)
    (s1 s0 q1 q0 : byte) (values : list Z) (w wk wt : W) :
  let start := get_u16 [s1; s0] in
  let quantity := get_u16 [q1; q0] in
  let width := width_of (data_width srv) in
  let k := Z.of_nat (length values) in
  quantity mod width = 0 ->
  quantity <= 128 ->
  k * width < quantity ->
  reads_owned (register_tables srv) start 0 values w wk ->
  chain_read (register_tables srv) (start + k) wk = (Throw, wt) ->
  dispatch_pdu srv [x03; s1; s0; q1; q0] w = (Ret [x83; x04], wt).
Proof.
  intros start quantity width k Hmod Hle Hk Hreads Hthrow.
  pose proof (width_of_pos (data_width srv)) as Hwidth. fold width in Hwidth.
  rewrite read_holding_registers_valid by assumption.
  fold start. fold quantity. fold width. unfold try_catch.
  replace (Z.to_nat quantity)
    with (length values + S (Z.to_nat quantity - length values - 1))%nat
    by (unfold k in Hk; nia).
  rewrite (read_loop_owned srv x03 start quantity width 0 values w wk Hreads)
    by (intros j Hj; fold k in Hj; nia).
  rewrite Z.add_0_l. fold k.
  rewrite (read_loop_throw srv x03 start quantity width _ k _ wk wt Hk Hthrow).
  reflexivity.
Qed.

(** A table that throws on every call, after the example backend. *)
Lemma read_holding_registers_throw_witness :
  dispatch_pdu
    (add (example_server W16)
       (Some {| read := fun _ w => (Throw, w);
                write := fun _ _ w => (Throw, w) |}))
    [x03; x00; x00; x00; x03] [16; 32]
  = (Ret [x83; x04], [16; 32]).
Proof.
  apply (read_holding_registers_throw
           (add (example_server W16)
              (Some {| read := fun _ w => (Throw, w);
                       write := fun _ _ w => (Throw, w) |}))
           x00 x00 x00 x03 [16; 32] [16; 32] [16; 32] [16; 32]).
  - reflexivity.
  - vm_compute. discriminate.
  - reflexivity.
  - apply reads_owned_cons with (w1 := [16; 32]); [reflexivity | ].
    apply reads_owned_cons with (w1 := [16; 32]); [reflexivity | ].
    apply reads_owned_nil.
  - reflexivity.
Defined.

(** X9. In 16-bit mode a 5-byte Write Single Register request that no
    table of the chain accepts is answered with [86 02] (illegal
    address). *)
Theorem write_single_register_miss {W : Type} (srv : Server W)
    (a1 a0 v1 v0 : byte) (w w' : W) :
  data_width srv = W16 ->
  chain_write (register_tables srv) (get_u16 [a1; a0]) (get_u16 [v1; v0]) w
  = (Ret false, w') ->
  dispatch_pdu srv [x06; a1; a0; v1; v0] w = (Ret [x86; x02], w').
Proof.
  intros Hw Hwrite.
  change (dispatch_pdu srv [x06; a1; a0; v1; v0])
    with (write_single_register srv [x06; a1; a0; v1; v0]).
  unfold write_single_register. cbn [length Nat.eqb negb skipn].
  rewrite Hw. unfold try_catch, bind.
  change (get_u16 [a1; a0; v1; v0]) with (get_u16 [a1; a0]).
  rewrite Hwrite. reflexivity.
Qed.

Lemma write_single_register_miss_witness :
  dispatch_pdu (example_server W16) [x06; x00; x02; x12; x34] [5; 6]
  = (Ret [x86; x02], [5; 6]).
Proof.
  apply (write_single_register_miss (example_server W16)); reflexivity.
Defined.

(** X10. In 16-bit mode a 5-byte Write Single Register request on which
    a backend throws is answered with [86 04] (slave device failure). *)
Theorem write_single_register_throw {W : Type} (srv : Server W)
    (a1 a0 v1 v0 : byte) (w w' : W) :
  data_width srv = W16 ->
  chain_write (register_tables srv) (get_u16 [a1; a0]) (get_u16 [v1; v0]) w
  = (Throw, w') ->
  dispatch_pdu srv [x06; a1; a0; v1; v0] w = (Ret [x86; x04], w').
Proof.
  intros Hw Hwrite.
  change (dispatch_pdu srv [x06; a1; a0; v1; v0])
    with (write_single_register srv [x06; a1; a0; v1; v0]).
  unfold write_single_register. cbn [length Nat.eqb negb skipn].
  rewrite Hw. unfold try_catch, bind.
  change (get_u16 [a1; a0; v1; v0]) with (get_u16 [a1; a0]).
  rewrite Hwrite. reflexivity.
Qed.

Lemma write_single_register_throw_witness :
  dispatch_pdu
    (add (example_server W16)
       (Some {| read := fun _ w => (Throw, w);
                write := fun _ _ w => (Throw, w) |}))
    [x06; x00; x02; x12; x34] [5; 6]
  = (Ret [x86; x04], [5; 6]).
Proof.
  apply (write_single_register_throw
           (add (example_server W16)
              (Some {| read := fun _ w => (Throw, w);
                       write := fun _ _ w => (Throw, w) |})));
    reflexivity.
Defined.

(** The run of a valid write whose registers are all accepted. *)
Lemma write_multiple_registers_run {W : Type} (srv : Server W)
    (s1 s0 q1 q0 bc : byte) (payload : list byte) (n : nat) (w w' : W) :
  let request := x10 :: s1 :: s0 :: q1 :: q0 :: bc :: payload in
  let start := get_u16 [s1; s0] in
  let quantity := get_u16 [q1; q0] in
  let width := width_of (data_width srv) in
  to_Z bc = quantity * 2 ->
  Z.of_nat (length payload) = to_Z bc ->
  Z.of_nat n * width = quantity ->
  writes_owned (register_tables srv) start
    (request_value srv request width) 0 n w w' ->
  dispatch_pdu srv request w = (Ret [x10; s1; s0; q1; q0], w').
Proof.
  intros request start quantity width Hbc Hsize Hn Hwrites.
  pose proof (width_of_pos (data_width srv)) as Hwidth. fold width in Hwidth.
  unfold request.
  rewrite write_multiple_registers_valid; fold start; fold quantity;
    fold width; fold request;
    [ | assumption | rewrite <- Hn; apply Z.mod_mul; lia | assumption].
  unfold try_catch. unfold bind at 1.
  replace (Z.to_nat quantity) with (n + (Z.to_nat quantity - n))%nat by nia.
  rewrite (write_loop_owned srv x10 request start quantity width 0 n w w'
             Hwrites) by (intros j Hj; nia).
  rewrite write_loop_exit by lia.
  unfold ret. f_equal. f_equal.
  assert (Hu16 : forall p, u16 (get_u16 p) = get_u16 p)
    by (intros p; unfold get_u16; apply u16_idem).
  unfold start, quantity. rewrite !Hu16, !push_u16_get_u16. reflexivity.
Qed.

(** X11. A Write Multiple Registers request of valid shape whose
    [quantity / width] values are all accepted by the chain is answered
    with its own first five bytes: function code, start and quantity. *)
Theorem write_multiple_registers_success {W : Type} (srv : Server W)
    (s1 s0 q1 q0 bc : byte) (payload : list byte) (n : nat) (w w' : W) :
  let request := x10 :: s1 :: s0 :: q1 :: q0 :: bc :: payload in
  let start := get_u16 [s1; s0] in
  let quantity := get_u16 [q1; q0] in
  let width := width_of (data_width srv) in
  to_Z bc = quantity * 2 ->
  Z.of_nat (length payload) = to_Z bc ->
  Z.of_nat n * width = quantity ->
  writes_owned (register_tables srv) start
    (request_value srv request width) 0 n w w' ->
  dispatch_pdu srv request w = (Ret [x10; s1; s0; q1; q0], w').
Proof.
  intros request start quantity width Hbc Hsize Hn Hwrites.
  apply (write_multiple_registers_run srv s1 s0 q1 q0 bc payload n w w');
    assumption.
Qed.

Lemma write_multiple_registers_success_witness :
  dispatch_pdu (example_server W32)
    [x10; x00; x00; x00; x04; x08; x00; x01; x00; x02; x00; x03; x00; x04]
    [0; 0]
  = (Ret [x10; x00; x00; x00; x04], [65538; 196612]).
Proof.
  apply (write_multiple_registers_success (example_server W32)
           x00 x00 x00 x04 x08 [x00; x01; x00; x02; x00; x03; x00; x04] 2
           [0; 0] [65538; 196612]).
  - reflexivity.
  - reflexivity.
  - reflexivity.
  - apply writes_owned_cons with (w1 := [65538; 0]); [reflexivity | ].
    apply writes_owned_cons with (w1 := [65538; 196612]); [reflexivity | ].
    apply writes_owned_nil.
Defined.

(** X12. When a backend throws on logical register [k] of a valid Write
    Multiple Registers request, the [k] registers before it having been
    written, the response is [90 04] (slave device failure) and the
    backends stay in the world the exception left: earlier writes are
    kept. *)
Theorem write_multiple_registers_throw {W : Type} (srv : Server W)
    (s1 s0 q1 q0 bc : byte) (payload : list byte) (k : nat) (w wk wt : W) :
  let request := x10 :: s1 :: s0 :: q1 :: q0 :: bc :: payload in
  let start := get_u16 [s1; s0] in
  let quantity := get_u16 [q1; q0] in
  let width := width_of (data_width srv) in
  to_Z bc = quantity * 2 ->
  quantity mod width = 0 ->
  Z.of_nat (length payload) = to_Z bc ->
  Z.of_nat k * width < quantity ->
  writes_owned (register_tables srv) start
    (request_value srv request width) 0 k w wk ->
  chain_write (register_tables srv) (start + Z.of_nat k)
    (request_value srv request width (Z.of_nat k)) wk = (Throw, wt) ->
  dispatch_pdu srv request w = (Ret [x90; x04], wt).
Proof.
  intros request start quantity width Hbc Hmod Hsize Hk Hwrites Hthrow.
  pose proof (width_of_pos (data_width srv)) as Hwidth. fold width in Hwidth.
  unfold request. rewrite write_multiple_registers_valid by assumption.
  fold request. fold start. fold quantity. fold width.
  unfold try_catch. unfold bind at 1.
  replace (Z.to_nat quantity)
    with (k + S (Z.to_nat quantity - k - 1))%nat by nia.
  rewrite (write_loop_owned srv x10 request start quantity width 0 k w wk
             Hwrites) by (intros j Hj; nia).
  rewrite Z.add_0_l.
  rewrite (write_loop_throw srv x10 request start quantity width _
             (Z.of_nat k) wk wt Hk Hthrow).
  reflexivity.
Qed.

Lemma write_multiple_registers_throw_witness :
  dispatch_pdu
    (add (example_server W16)
       (Some {| read := fun _ w => (Throw, w);
                write := fun _ _ w => (Throw, w) |}))
    [x10; x00; x00; x00; x03; x06; x00; x0a; x00; x0b; x00; x0c] [0; 0]
  = (Ret [x90; x04], [10; 11]).
Proof.
  apply (write_multiple_registers_throw
           (add (example_server W16)
              (Some {| read := fun _ w => (Throw, w);
                       write := fun _ _ w => (Throw, w) |}))
           x00 x00 x00 x03 x06 [x00; x0a; x00; x0b; x00; x0c] 2
           [0; 0] [10; 11] [10; 11]).
  - reflexivity.
  - reflexivity.
  - reflexivity.
  - reflexivity.
  - apply writes_owned_cons with (w1 := [10; 0]); [reflexivity | ].
    apply writes_owned_cons with (w1 := [10; 11]); [reflexivity | ].
    apply writes_owned_nil.
  - reflexivity.
Defined.

(** ** Size of every response *)

Section ResponseSize.

Context {W : Type}.
Variable srv : Server W.

Lemma read_holding_registers_bounded (fc : byte) (rest : list byte) :
  bounded_handler (read_holding_registers srv (fc :: rest)).
Proof.
  intros w. unfold read_holding_registers. cbn [nth].
  destruct (negb (length (fc :: rest) =? 5)%nat);
    [unfold ret; eexists; eexists; split; [reflexivity | cbn; lia] | ].
  destruct (Z.eqb_spec (get_u16 (skipn 3 (fc :: rest))
                          mod width_of (data_width srv)) 0) as [Hmod | _];
    [ | unfold ret; eexists; eexists; split; [reflexivity | cbn; lia]].
  cbn [negb].
  destruct (Z.ltb_spec 128 (get_u16 (skipn 3 (fc :: rest)))) as [_ | Hle];
    [unfold ret; eexists; eexists; split; [reflexivity | cbn; lia] | ].
  pose proof (get_u16_range (skipn 3 (fc :: rest))) as Hq.
  set (quantity := get_u16 (skipn 3 (fc :: rest))) in *.
  set (start := get_u16 (skipn 1 (fc :: rest))).
  set (out := [fc; u8 (quantity * 2)]).
  unfold try_catch.
  pose proof (read_loop_shape srv fc start quantity
                (width_of (data_width srv)) (Z.to_nat quantity) 0 out w)
    as Hshape.
  pose proof (read_loop_length srv fc start quantity (Z.to_nat quantity)
                Hmod 0 out w ltac:(lia) ltac:(lia)) as Hlen.
  destruct (read_loop srv fc start quantity (width_of (data_width srv))
              (Z.to_nat quantity) 0 out w) as [[resp | ] w'].
  - exists resp, w'. split; [reflexivity | ].
    destruct Hshape as [[tail ->] | ->]; [ | cbn; lia].
    rewrite length_app in *. cbn [length out] in *.
    destruct Hlen as [Hlen | Hlen]; lia.
  - unfold ret. eexists; eexists; split; [reflexivity | cbn; lia].
Qed.

Lemma write_single_register_bounded (fc : byte) (rest : list byte) :
  bounded_handler (write_single_register srv (fc :: rest)).
Proof.
  intros w. unfold write_single_register. cbn [nth].
  destruct (Nat.eqb_spec (length (fc :: rest)) 5) as [Hlen | _];
    [ | unfold ret; eexists; eexists; split; [reflexivity | cbn; lia]].
  cbn [negb].
  destruct (data_width srv);
    [ | unfold ret; eexists; eexists; split; [reflexivity | cbn; lia]].
  unfold try_catch, bind.
  destruct (chain_write _ _ _ w) as [[[ | ] | ] w']; cbn [negb]; unfold ret;
    eexists; eexists; (split; [reflexivity | ]); [lia | cbn; lia | cbn; lia].
Qed.

Lemma write_multiple_registers_bounded (fc : byte) (rest : list byte) :
  bounded_handler (write_multiple_registers srv (fc :: rest)).
Proof.
  intros w. unfold write_multiple_registers. cbn [nth].
  destruct (length (fc :: rest) <? 6)%nat;
    [unfold ret; eexists; eexists; split; [reflexivity | cbn; lia] | ].
  destruct (negb (_ =? _));
    [unfold ret; eexists; eexists; split; [reflexivity | cbn; lia] | ].
  destruct (negb (_ =? 0));
    [unfold ret; eexists; eexists; split; [reflexivity | cbn; lia] | ].
  destruct (negb (_ =? _));
    [unfold ret; eexists; eexists; split; [reflexivity | cbn; lia] | ].
  unfold try_catch. unfold bind at 1.
  match goal with
  | |- context [write_loop ?s ?f ?r ?st ?q ?wd ?fu ?i w] =>
      pose proof (write_loop_shape s f r st q wd fu i w) as Hshape;
      destruct (write_loop s f r st q wd fu i w) as [[[resp | ] | ] w']
  end.
  - subst resp. unfold ret.
    eexists; eexists; split; [reflexivity | cbn; lia].
  - unfold ret. eexists; eexists; split; [reflexivity | cbn; lia].
  - unfold ret. eexists; eexists; split; [reflexivity | cbn; lia].
Qed.

End ResponseSize.

(** X13. Every response PDU of [dispatch_pdu] is between 2 and 258 bytes
    long, whatever the request and the backends, so the 16-bit length
    field [1 + size] of the response header never wraps. *)
Theorem dispatch_pdu_response_size {W : Type} (srv : Server W)
    (request : list byte) (w : W) :
  exists (resp : list byte) (w' : W),
    dispatch_pdu srv request w = (Ret resp, w')
    /\ (2 <= length resp <= 258)%nat
    /\ u16 (1 + Z.of_nat (length resp)) = 1 + Z.of_nat (length resp).
Proof.
  assert (Hfield : forall resp : list byte,
             (2 <= length resp <= 258)%nat ->
             (2 <= length resp <= 258)%nat
             /\ u16 (1 + Z.of_nat (length resp)) = 1 + Z.of_nat (length resp)).
  { intros resp H. split; [exact H | apply u16_small; lia]. }
  assert (Hhandler : forall m : M W (list byte),
             bounded_handler m ->
             exists resp w',
               m w = (Ret resp, w')
               /\ (2 <= length resp <= 258)%nat
               /\ u16 (1 + Z.of_nat (length resp))
                  = 1 + Z.of_nat (length resp)).
  { intros m Hm. destruct (Hm w) as [resp [w' [Hrun Hlen]]].
    exists resp, w'. split; [exact Hrun | apply Hfield; exact Hlen]. }
  destruct request as [ | b rest].
  - exists (exception_pdu x00 EX_ILLEGAL_FUNCTION), w.
    split; [reflexivity | apply Hfield; cbn; lia].
  - unfold dispatch_pdu.
    change (length (b :: rest) <? 1)%nat with false. cbv iota.
    destruct (at_ (b :: rest) 0 =? to_Z FC_READ_HOLDING_REGISTERS);
      [apply Hhandler, read_holding_registers_bounded | ].
    destruct (at_ (b :: rest) 0 =? to_Z FC_WRITE_SINGLE_REGISTER);
      [apply Hhandler, write_single_register_bounded | ].
    destruct (at_ (b :: rest) 0 =? to_Z FC_WRITE_MULTIPLE_REGISTERS);
      [apply Hhandler, write_multiple_registers_bounded | ].
    eexists; eexists. split; [reflexivity | apply Hfield; cbn; lia].
Qed.

(** ** The chain and [add] *)

Lemma chain_read_app {W : Type} (tables : list (RegisterTable W))
    (t : RegisterTable W) (address : Z) (w : W) :
  chain_read (tables ++ [t]) address w
  = match chain_read tables address w with
    | (Ret None, w1) => read t address w1
    | answered => answered
    end.
Proof.
  revert w. induction tables as [ | t0 tables IH]; intros w.
  - cbn [app chain_read]. unfold bind, ret.
    destruct (read t address w) as [[[v | ] | ] w1]; reflexivity.
  - cbn [app chain_read]. unfold bind.
    destruct (read t0 address w) as [[[v | ] | ] w1];
      [reflexivity | apply IH | reflexivity].
Qed.

Lemma chain_write_app {W : Type} (tables : list (RegisterTable W))
    (t : RegisterTable W) (address value : Z) (w : W) :
  chain_write (tables ++ [t]) address value w
  = match chain_write tables address value w with
    | (Ret false, w1) => write t address value w1
    | answered => answered
    end.
Proof.
  revert w. induction tables as [ | t0 tables IH]; intros w.
  - cbn [app chain_write]. unfold bind, ret.
    destruct (write t address value w) as [[[ | ] | ] w1]; reflexivity.
  - cbn [app chain_write]. unfold bind.
    destruct (write t0 address value w) as [[[ | ] | ] w1];
      [reflexivity | apply IH | reflexivity].
Qed.

(** X14. A table added with [add] comes last in the chain: it is
    consulted for an address only when every table registered before it
    has reported a miss, in the world those misses left; an answer or an
    exception of an earlier table stands.  A null table changes nothing,
    and [add] keeps the data width. *)
Theorem add_is_consulted_last {W : Type} (srv : Server W)
    (t : RegisterTable W) (address value : Z) (w : W) :
  chain_read (register_tables (add srv (Some t))) address w
  = match chain_read (register_tables srv) address w with
    | (Ret None, w1) => read t address w1
    | answered => answered
    end
  /\ chain_write (register_tables (add srv (Some t))) address value w
     = match chain_write (register_tables srv) address value w with
       | (Ret false, w1) => write t address value w1
       | answered => answered
       end
  /\ add srv None = srv
  /\ data_width (add srv (Some t)) = data_width srv.
Proof.
  split; [apply chain_read_app | ].
  split; [apply chain_write_app | ].
  split; reflexivity.
Qed.

(** ** Exact reads and writes *)

Lemma read_exact_loop_zero (script : list recv_event) (buf : list byte) :
  read_exact_loop script 0 buf = (Some buf, script).
Proof. destruct script; reflexivity. Qed.


(** A successful exact read takes the next [n] bytes of the stream and
    leaves the rest in place. *)
Lemma read_exact_loop_some (script : list recv_event) :
  forall (n : nat) (buf r : list byte) (script' : list recv_event),
    read_exact_loop script n buf = (Some r, script') ->
    exists got : list byte,
      r = buf ++ got /\ length got = n
      /\ recv_bytes script = got ++ recv_bytes script'.
Proof.
  induction script as [ | e script IH]; intros n buf r script' H.
  - destruct n; [ | discriminate H]. injection H as <- <-.
    exists []. rewrite app_nil_r. repeat split.
  - destruct n as [ | n].
    { rewrite read_exact_loop_zero in H. injection H as <- <-.
      exists []. rewrite app_nil_r. repeat split. }
    destruct e as [bytes | | ].
    + destruct bytes as [ | b bytes]; [discriminate H | ].
      cbn [read_exact_loop] in H.
      destruct (Nat.leb_spec (length (b :: bytes)) (S n)) as [Hle | Hgt].
      * apply IH in H. destruct H as [got [-> [Hlen Hstream]]].
        exists ((b :: bytes) ++ got). rewrite app_assoc.
        split; [reflexivity | ]. split; [rewrite length_app; lia | ].
        cbn [recv_bytes flat_map]. fold (recv_bytes script).
        rewrite Hstream, app_assoc. reflexivity.
      * injection H as <- <-. exists (firstn (S n) (b :: bytes)).
        split; [reflexivity | ]. split; [apply firstn_length_le; lia | ].
        cbn [recv_bytes flat_map]. fold (recv_bytes script).
        rewrite <- (firstn_skipn (S n) (b :: bytes)) at 1.
        rewrite <- app_assoc. reflexivity.
    + cbn [read_exact_loop] in H. apply IH in H. exact H.
    + discriminate H.
Qed.

(** X15. When [read_exact] succeeds it returns exactly [n] bytes: the next
    [n] bytes of the stream, in order; the bytes after them are still to
    be received, and nothing is sent. *)
Theorem read_exact_takes_next_bytes (fd fd' : Socket) (n : nat)
    (buf : list byte) :
  read_exact fd n = (Some buf, fd') ->
  length buf = n
  /\ recv_bytes (inbound fd) = buf ++ recv_bytes (inbound fd')
  /\ sent fd' = sent fd
  /\ outbound fd' = outbound fd.
Proof.
  intros H. pose proof (read_exact_sent fd fd' n (Some buf) H) as [Hs Ho].
  unfold read_exact in H.
  destruct (read_exact_loop (inbound fd) n []) as [r script] eqn:E.
  injection H as -> <-. apply read_exact_loop_some in E.
  destruct E as [got [-> [Hlen Hstream]]]. cbn [app inbound].
  repeat split; assumption.
Qed.

Lemma read_exact_takes_next_bytes_witness :
  length [x00; x07; x00; x00; x00] = 5%nat
  /\ recv_bytes
       (inbound {| inbound := [RecvData [x00; x07; x00; x00]; RecvEINTR;
                               RecvData [x00; x06; x01]];
                   outbound := [SendError]; sent := [x09] |})
     = [x00; x07; x00; x00; x00]
       ++ recv_bytes
            (inbound {| inbound := [RecvData [x06; x01]];
                        outbound := [SendError]; sent := [x09] |})
  /\ sent {| inbound := [RecvData [x06; x01]];
             outbound := [SendError]; sent := [x09] |}
     = sent {| inbound := [RecvData [x00; x07; x00; x00]; RecvEINTR;
                           RecvData [x00; x06; x01]];
               outbound := [SendError]; sent := [x09] |}
  /\ outbound {| inbound := [RecvData [x06; x01]];
                 outbound := [SendError]; sent := [x09] |}
     = outbound {| inbound := [RecvData [x00; x07; x00; x00]; RecvEINTR;
                               RecvData [x00; x06; x01]];
                   outbound := [SendError]; sent := [x09] |}.
Proof.
  apply (read_exact_takes_next_bytes
           {| inbound := [RecvData [x00; x07; x00; x00]; RecvEINTR;
                          RecvData [x00; x06; x01]];
              outbound := [SendError]; sent := [x09] |}
           {| inbound := [RecvData [x06; x01]];
              outbound := [SendError]; sent := [x09] |}
           5 [x00; x07; x00; x00; x00]).
  reflexivity.
Defined.

(** On a script whose first events are data or interruptions carrying at
    least [n] bytes, the exact read succeeds, however the bytes are cut
    into pieces. *)
Lemma read_exact_loop_clean (post : list recv_event)
    (pre : list recv_event) :
  forall (n : nat) (buf : list byte),
    forallb recv_clean pre = true ->
    (n <= length (recv_bytes pre))%nat ->
    exists pre' : list recv_event,
      read_exact_loop (pre ++ post) n buf
      = (Some (buf ++ firstn n (recv_bytes pre)), pre' ++ post)
      /\ forallb recv_clean pre' = true
      /\ recv_bytes pre' = skipn n (recv_bytes pre).
Proof.
  induction pre as [ | e pre IH]; intros n buf Hclean Hn.
  - cbn [recv_bytes flat_map length] in Hn.
    assert (n = 0%nat) as -> by lia.
    exists []. cbn [app]. rewrite read_exact_loop_zero, app_nil_r.
    repeat split.
  - destruct n as [ | n].
    { exists (e :: pre). rewrite read_exact_loop_zero.
      cbn [firstn skipn]. rewrite app_nil_r. repeat split. exact Hclean. }
    cbn [forallb] in Hclean. apply andb_true_iff in Hclean.
    destruct Hclean as [He Hclean].
    destruct e as [bytes | | ]; [ | | discriminate He].
    + destruct bytes as [ | b bytes]; [discriminate He | ].
      cbn [recv_bytes flat_map] in *. fold (recv_bytes pre) in *.
      change ((RecvData (b :: bytes) :: pre) ++ post)
        with (RecvData (b :: bytes) :: (pre ++ post)).
      cbn [read_exact_loop].
      destruct (Nat.leb_spec (length (b :: bytes)) (S n)) as [Hle | Hgt].
      * rewrite length_app in Hn.
        destruct (IH (S n - length (b :: bytes))%nat (buf ++ b :: bytes)
                    Hclean ltac:(lia)) as [pre' [Hrun [Hc Hb]]].
        exists pre'. rewrite Hrun. split; [ | split; [exact Hc | ]].
        -- rewrite firstn_app, (firstn_all2 (b :: bytes)) by lia.
           rewrite <- app_assoc. reflexivity.
        -- rewrite Hb, skipn_app, (skipn_all2 (b :: bytes)) by lia.
           reflexivity.
      * exists (RecvData (skipn (S n) (b :: bytes)) :: pre).
        split; [ | split].
        -- rewrite firstn_app.
           replace (S n - length (b :: bytes))%nat with 0%nat by lia.
           cbn [firstn]. rewrite app_nil_r. reflexivity.
        -- cbn [forallb]. rewrite Hclean, andb_true_r.
           destruct (skipn (S n) (b :: bytes)) as [ | c rest] eqn:E;
             [ | reflexivity].
           apply (f_equal (@length byte)) in E.
           rewrite length_skipn in E. cbn [length] in E, Hgt. lia.
        -- cbn [recv_bytes flat_map]. fold (recv_bytes pre).
           rewrite skipn_app.
           replace (S n - length (b :: bytes))%nat with 0%nat by lia.
           reflexivity.
    + cbn [recv_bytes flat_map] in *. fold (recv_bytes pre) in *.
      change (recv_bytes pre) with ([] ++ recv_bytes pre) in Hn.
      change ((RecvEINTR :: pre) ++ post) with (RecvEINTR :: (pre ++ post)).
      cbn [read_exact_loop]. cbn [app] in Hn |- *.
      destruct (IH (S n) buf Hclean Hn) as [pre' [Hrun [Hc Hb]]].
      exists pre'. rewrite Hrun. repeat split; assumption.
Qed.

(** X16. How the stream is cut into [recv] results does not matter: when
    the next events of a socket are data or interrupted calls that carry
    at least [n] bytes, [read_exact] succeeds with the first [n] of those
    bytes and leaves the remaining ones to be received next. *)
Theorem read_exact_reassembles (fd : Socket) (pre post : list recv_event)
    (n : nat) :
  inbound fd = pre ++ post ->
  forallb recv_clean pre = true ->
  (n <= length (recv_bytes pre))%nat ->
  exists pre' : list recv_event,
    read_exact fd n
    = (Some (firstn n (recv_bytes pre)),
       {| inbound := pre' ++ post; outbound := outbound fd;
          sent := sent fd |})
    /\ forallb recv_clean pre' = true
    /\ recv_bytes pre' = skipn n (recv_bytes pre).
Proof.
  intros Hin Hclean Hn.
  destruct (read_exact_loop_clean post pre n [] Hclean Hn)
    as [pre' [Hrun [Hc Hb]]].
  exists pre'. unfold read_exact. rewrite Hin, Hrun.
  repeat split; assumption.
Qed.

Lemma read_exact_reassembles_witness :
  exists pre' : list recv_event,
    read_exact
      {| inbound := [RecvData [x00; x07]; RecvEINTR; RecvData [x00; x00; x00];
                     RecvData []];
         outbound := []; sent := [] |} 4
    = (Some (firstn 4 (recv_bytes [RecvData [x00; x07]; RecvEINTR;
                                   RecvData [x00; x00; x00]])),
       {| inbound := pre' ++ [RecvData []]; outbound := []; sent := [] |})
    /\ forallb recv_clean pre' = true
    /\ recv_bytes pre'
       = skipn 4 (recv_bytes [RecvData [x00; x07]; RecvEINTR;
                              RecvData [x00; x00; x00]]).
Proof.
  apply (read_exact_reassembles
           {| inbound := [RecvData [x00; x07]; RecvEINTR;
                          RecvData [x00; x00; x00]; RecvData []];
              outbound := []; sent := [] |}
           [RecvData [x00; x07]; RecvEINTR; RecvData [x00; x00; x00]]
           [RecvData []] 4).
  - reflexivity.
  - reflexivity.
  - cbn. lia.
Defined.

(** A stream that ends before [n] bytes makes the exact read fail. *)
Lemma read_exact_loop_short (script : list recv_event) :
  forall (n : nat) (buf : list byte),
    (length (recv_bytes script) < n)%nat ->
    fst (read_exact_loop script n buf) = None.
Proof.
  induction script as [ | e script IH]; intros n buf Hn.
  - destruct n; [cbn in Hn; lia | reflexivity].
  - destruct n as [ | n]; [lia | ].
    destruct e as [bytes | | ].
    + destruct bytes as [ | b bytes]; [reflexivity | ].
      cbn [recv_bytes flat_map] in Hn. fold (recv_bytes script) in Hn.
      rewrite length_app in Hn. cbn [read_exact_loop].
      destruct (Nat.leb_spec (length (b :: bytes)) (S n)) as [Hle | Hgt];
        [apply IH; lia | lia].
    + cbn [read_exact_loop]. apply IH. exact Hn.
    + reflexivity.
Qed.

Lemma read_exact_short (fd : Socket) (n : nat) :
  (length (recv_bytes (inbound fd)) < n)%nat ->
  exists fd', read_exact fd n = (None, fd') /\ sent fd' = sent fd.
Proof.
  intros Hn. pose proof (read_exact_loop_short (inbound fd) n [] Hn) as H.
  unfold read_exact.
  destruct (read_exact_loop (inbound fd) n []) as [r script].
  cbn [fst] in H. subst r. eexists. split; reflexivity.
Qed.

(** What an exact write delivers is a prefix of the data, all of it
    exactly when the write succeeds. *)
Lemma write_exact_loop_prefix (script : list send_event) :
  forall (data delivered : list byte),
    exists prefix suffix : list byte,
      data = prefix ++ suffix
      /\ snd (write_exact_loop script data delivered) = delivered ++ prefix
      /\ (fst (fst (write_exact_loop script data delivered)) = true
          <-> suffix = []).
Proof.
  induction script as [ | e script IH]; intros data delivered.
  - exists data, []. split; [symmetry; apply app_nil_r | ].
    destruct data; cbn [write_exact_loop fst snd];
      (split; [ | tauto]); [symmetry; apply app_nil_r | reflexivity].
  - destruct data as [ | b data].
    { exists [], []. cbn [write_exact_loop fst snd].
      split; [reflexivity | ].
      split; [symmetry; apply app_nil_r | tauto]. }
    destruct e as [n | | ].
    + destruct n as [ | n].
      * exists [], (b :: data). cbn [write_exact_loop fst snd].
        rewrite app_nil_r. split; [reflexivity | ]. split; [reflexivity | ].
        split; discriminate.
      * cbn [write_exact_loop].
        destruct (IH (skipn (S n) (b :: data))
                    (delivered ++ firstn (S n) (b :: data)))
          as [prefix [suffix [Hsplit [Hsent Hok]]]].
        exists (firstn (S n) (b :: data) ++ prefix), suffix.
        split; [ | split; [ | exact Hok]].
        -- rewrite <- app_assoc, <- Hsplit. symmetry. apply firstn_skipn.
        -- rewrite Hsent. symmetry. apply app_assoc.
    + cbn [write_exact_loop]. apply IH.
    + exists [], (b :: data). cbn [write_exact_loop fst snd].
      rewrite app_nil_r. split; [reflexivity | ]. split; [reflexivity | ].
      split; discriminate.
Qed.

(** X17. [write_exact] delivers the bytes of its buffer in order, after
    what was sent before: a prefix of the buffer, and the whole buffer
    exactly when it returns [true].  It receives nothing. *)
Theorem write_exact_delivers_prefix (fd : Socket) (data : list byte) :
  exists prefix suffix : list byte,
    data = prefix ++ suffix
    /\ sent (snd (write_exact fd data)) = sent fd ++ prefix
    /\ (fst (write_exact fd data) = true <-> suffix = [])
    /\ inbound (snd (write_exact fd data)) = inbound fd.
Proof.
  destruct (write_exact_loop_prefix (outbound fd) data (sent fd))
    as [prefix [suffix [Hsplit [Hsent Hok]]]].
  exists prefix, suffix. unfold write_exact.
  destruct (write_exact_loop (outbound fd) data (sent fd))
    as [[ok script] delivered].
  cbn [fst snd sent inbound] in *. repeat split; try assumption; apply Hok.
Qed.

Lemma write_exact_loop_clean (script : list send_event) :
  forall (data delivered : list byte),
    forallb send_clean script = true ->
    exists script' : list send_event,
      write_exact_loop script data delivered
      = (true, script', delivered ++ data)
      /\ forallb send_clean script' = true.
Proof.
  induction script as [ | e script IH]; intros data delivered Hclean.
  - exists []. destruct data; cbn [write_exact_loop];
      rewrite ?app_nil_r; split; reflexivity.
  - destruct data as [ | b data].
    { exists (e :: script). cbn [write_exact_loop]. rewrite app_nil_r.
      split; [reflexivity | exact Hclean]. }
    cbn [forallb] in Hclean. apply andb_true_iff in Hclean.
    destruct Hclean as [He Hclean].
    destruct e as [[ | n] | | ]; try discriminate He.
    + cbn [write_exact_loop].
      destruct (IH (skipn (S n) (b :: data))
                  (delivered ++ firstn (S n) (b :: data)) Hclean)
        as [script' [Hrun Hc]].
      exists script'. rewrite Hrun. split; [ | exact Hc].
      rewrite <- app_assoc, firstn_skipn. reflexivity.
    + cbn [write_exact_loop]. apply IH. exact Hclean.
Qed.

(** X18. When no [send] fails, that is, every [send] accepts at least one
    byte or is interrupted, [write_exact] returns [true] having delivered
    the whole buffer, however many partial sends that takes. *)
Theorem write_exact_retries (fd : Socket) (data : list byte) :
  forallb send_clean (outbound fd) = true ->
  fst (write_exact fd data) = true
  /\ sent (snd (write_exact fd data)) = sent fd ++ data
  /\ forallb send_clean (outbound (snd (write_exact fd data))) = true.
Proof.
  intros Hclean.
  destruct (write_exact_loop_clean (outbound fd) data (sent fd) Hclean)
    as [script' [Hrun Hc]].
  unfold write_exact. rewrite Hrun. cbn [fst snd sent outbound].
  repeat split. exact Hc.
Qed.

Lemma write_exact_retries_witness :
  fst (write_exact
         {| inbound := []; outbound := [SendAccept 2; SendEINTR; SendAccept 1];
            sent := [x01] |} [x0a; x0b; x0c; x0d]) = true
  /\ sent (snd (write_exact
                  {| inbound := [];
                     outbound := [SendAccept 2; SendEINTR; SendAccept 1];
                     sent := [x01] |} [x0a; x0b; x0c; x0d]))
     = [x01] ++ [x0a; x0b; x0c; x0d]
  /\ forallb send_clean
       (outbound (snd (write_exact
                         {| inbound := [];
                            outbound := [SendAccept 2; SendEINTR; SendAccept 1];
                            sent := [x01] |} [x0a; x0b; x0c; x0d]))) = true.
Proof.
  apply (write_exact_retries
           {| inbound := []; outbound := [SendAccept 2; SendEINTR; SendAccept 1];
              sent := [x01] |} [x0a; x0b; x0c; x0d]).
  reflexivity.
Defined.

(** ** One request, end to end *)

(** X19. The response header decodes to the fields it was built from:
    the transaction id cut to 16 bits, protocol id 0, the length
    [1 + resp_pdu_size] cut to 16 bits, and the unit id cut to 8 bits. *)
Theorem response_header_fields (transaction_id unit_id resp_pdu_size : Z) :
  length (encode_header transaction_id unit_id resp_pdu_size) = 7%nat
  /\ decode_header (encode_header transaction_id unit_id resp_pdu_size)
     = {| MBAP.transaction_id := u16 transaction_id;
          MBAP.protocol_id := 0;
          MBAP.length := u16 (1 + resp_pdu_size);
          MBAP.unit_id := unit_id mod 256 |}.
Proof.
  split; [reflexivity | ].
  unfold decode_header, encode_header. f_equal.
  - apply get_u16_push_u16.
  - change (get_u16 (skipn 4 (push_u16 transaction_id ++ push_u16 0
              ++ push_u16 (u16 (1 + resp_pdu_size)) ++ [u8 unit_id])))
      with (get_u16 (push_u16 (u16 (1 + resp_pdu_size)) ++ [u8 unit_id])).
    rewrite get_u16_push_u16. apply u16_idem.
  - change (at_ (push_u16 transaction_id ++ push_u16 0
              ++ push_u16 (u16 (1 + resp_pdu_size)) ++ [u8 unit_id]) 6)
      with (to_Z (u8 unit_id)).
    apply to_Z_u8.
Qed.

(** X20. A connection whose stream ends before the 7 header bytes is
    closed ([false]) without any byte sent and without any backend
    call. *)
Theorem handle_single_request_short_stream {W : Type} (srv : Server W)
    (fd : Socket) (w : W) :
  (length (recv_bytes (inbound fd)) < 7)%nat ->
  exists fd' : Socket,
    handle_single_request srv fd w = (false, fd', w)
    /\ sent fd' = sent fd.
Proof.
  intros Hshort. destruct (read_exact_short fd 7 Hshort) as [fd' [Hread Hs]].
  exists fd'. apply handle_single_request_short_header. exact Hread.
Qed.

Lemma handle_single_request_short_stream_witness :
  exists fd' : Socket,
    handle_single_request (example_server W16)
      {| inbound := [RecvData [x00; x01]; RecvEINTR; RecvData [x00; x00];
                     RecvError];
         outbound := []; sent := [] |} [16; 32]
    = (false, fd', [16; 32])
    /\ sent fd' = [].
Proof.
  apply (handle_single_request_short_stream (example_server W16)
           {| inbound := [RecvData [x00; x01]; RecvEINTR;
                          RecvData [x00; x00]; RecvError];
              outbound := []; sent := [] |} [16; 32]).
  cbn. lia.
Defined.

(** X21. When the header has been read and the stream ends before the
    [length - 1] PDU bytes it announces, the connection is closed
    ([false]) without any byte sent and without any backend call,
    whatever the header says. *)
Theorem handle_single_request_truncated_pdu {W : Type} (srv : Server W)
    (fd fd1 : Socket) (header : list byte) (w : W) :
  read_exact fd 7 = (Some header, fd1) ->
  Z.of_nat (length (recv_bytes (inbound fd1)))
  < MBAP.length (decode_header header) - 1 ->
  exists fd' : Socket,
    handle_single_request srv fd w = (false, fd', w)
    /\ sent fd' = sent fd.
Proof.
  intros Hread Hshort.
  pose proof (read_exact_sent fd fd1 7 (Some header) Hread) as [Hs1 _].
  unfold handle_single_request. rewrite Hread.
  destruct (negb (MBAP.protocol_id (decode_header header) =? 0));
    [exists fd1; split; [reflexivity | exact Hs1] | ].
  destruct (MBAP.length (decode_header header) <? 2);
    [exists fd1; split; [reflexivity | exact Hs1] | ].
  destruct (Z.ltb_spec 1 (MBAP.length (decode_header header)));
    [ | pose proof (Nat2Z.is_nonneg (length (recv_bytes (inbound fd1)))); lia].
  destruct (256 <? MBAP.length (decode_header header) - 1);
    [exists fd1; split; [reflexivity | exact Hs1] | ].
  destruct (read_exact_short fd1
              (Z.to_nat (MBAP.length (decode_header header) - 1))
              ltac:(lia)) as [fd2 [Hread2 Hs2]].
  rewrite Hread2. exists fd2. split; [reflexivity | congruence].
Qed.

Lemma handle_single_request_truncated_pdu_witness :
  exists fd' : Socket,
    handle_single_request (example_server W16)
      {| inbound := [RecvData [x00; x01; x00; x00; x00; x06; x01; x03; x00];
                     RecvData []];
         outbound := []; sent := [] |} [16; 32]
    = (false, fd', [16; 32])
    /\ sent fd' = [].
Proof.
  apply (handle_single_request_truncated_pdu (example_server W16)
           {| inbound := [RecvData [x00; x01; x00; x00; x00; x06; x01;
                                    x03; x00]; RecvData []];
              outbound := []; sent := [] |}
           {| inbound := [RecvData [x03; x00]; RecvData []];
              outbound := []; sent := [] |}
           [x00; x01; x00; x00; x00; x06; x01] [16; 32]).
  - reflexivity.
  - vm_compute. reflexivity.
Defined.



(** ** The example backend *)

Lemma vector_set_length (registers : list Z) (i : nat) (v : Z) :
  length (vector_set registers i v) = length registers.
Proof.
  revert i. induction registers as [ | r registers IH]; intros [ | i];
    cbn [vector_set length]; try reflexivity.
  rewrite IH. reflexivity.
Qed.

Lemma vector_set_nth_eq (registers : list Z) (i : nat) (v : Z) :
  (i < length registers)%nat -> nth i (vector_set registers i v) 0 = v.
Proof.
  revert i. induction registers as [ | r registers IH]; intros [ | i] H;
    cbn [length] in H; try lia; cbn [vector_set nth]; [reflexivity | ].
  apply IH. lia.
Qed.

Lemma vector_set_nth_neq (registers : list Z) (i j : nat) (v : Z) :
  i <> j -> nth j (vector_set registers i v) 0 = nth j registers 0.
Proof.
  revert i j. induction registers as [ | r registers IH]; intros [ | i] [ | j] H;
    cbn [vector_set nth]; try reflexivity; try contradiction.
  apply IH. lia.
Qed.

Lemma mem_chain_write (registers : list Z) (address value : Z) :
  0 <= address < Z.of_nat (length registers) ->
  chain_write [MemoryRegisterTable] address value registers
  = (Ret true, vector_set registers (Z.to_nat address) value).
Proof.
  intros H. cbn [chain_write]. unfold bind, ret.
  cbn [write MemoryRegisterTable].
  destruct (Z.leb_spec (Z.of_nat (length registers)) address);
    [lia | reflexivity].
Qed.

Lemma mem_chain_write_miss (registers : list Z) (address value : Z) :
  Z.of_nat (length registers) <= address ->
  chain_write [MemoryRegisterTable] address value registers
  = (Ret false, registers).
Proof.
  intros H. cbn [chain_write]. unfold bind, ret.
  cbn [write MemoryRegisterTable].
  destruct (Z.leb_spec (Z.of_nat (length registers)) address);
    [reflexivity | lia].
Qed.

Lemma mem_chain_read (registers : list Z) (address : Z) :
  0 <= address < Z.of_nat (length registers) ->
  chain_read [MemoryRegisterTable] address registers
  = (Ret (Some (nth (Z.to_nat address) registers 0)), registers).
Proof.
  intros H. cbn [chain_read]. unfold bind, ret.
  cbn [read MemoryRegisterTable].
  destruct (Z.leb_spec (Z.of_nat (length registers)) address);
    [lia | reflexivity].
Qed.

Lemma mem_chain_read_miss (registers : list Z) (address : Z) :
  Z.of_nat (length registers) <= address ->
  chain_read [MemoryRegisterTable] address registers = (Ret None, registers).
Proof.
  intros H. cbn [chain_read]. unfold bind, ret.
  cbn [read MemoryRegisterTable].
  destruct (Z.leb_spec (Z.of_nat (length registers)) address);
    [reflexivity | lia].
Qed.

(** X23. The example backend is a register file: a write inside its size
    is accepted, keeps the size, is read back at the same address and
    leaves every other register as it was; reads change nothing.  At or
    beyond its size both calls report a miss and change nothing. *)
Theorem MemoryRegisterTable_register_file (registers : list Z)
    (address value other : Z) :
  0 <= address < Z.of_nat (length registers) ->
  0 <= other ->
  other <> address ->
  let registers' := vector_set registers (Z.to_nat address) value in
  write MemoryRegisterTable address value registers = (Ret true, registers')
  /\ length registers' = length registers
  /\ read MemoryRegisterTable address registers'
     = (Ret (Some value), registers')
  /\ read MemoryRegisterTable other registers'
     = (fst (read MemoryRegisterTable other registers), registers')
  /\ (Z.of_nat (length registers) <= other ->
      write MemoryRegisterTable other value registers = (Ret false, registers)
      /\ read MemoryRegisterTable other registers = (Ret None, registers)).
Proof.
  intros Ha Ho Hne registers'.
  assert (Hlen : length registers' = length registers)
    by apply vector_set_length.
  split.
  { cbn [write MemoryRegisterTable].
    destruct (Z.leb_spec (Z.of_nat (length registers)) address);
      [lia | reflexivity]. }
  split; [exact Hlen | ].
  split.
  { cbn [read MemoryRegisterTable]. rewrite Hlen.
    destruct (Z.leb_spec (Z.of_nat (length registers)) address); [lia | ].
    unfold registers'. rewrite vector_set_nth_eq by lia. reflexivity. }
  split.
  { cbn [read MemoryRegisterTable]. rewrite Hlen.
    destruct (Z.leb_spec (Z.of_nat (length registers)) other);
      [reflexivity | ].
    cbn [fst]. unfold registers'.
    rewrite vector_set_nth_neq by lia. reflexivity. }
  intros Hout. cbn [read write MemoryRegisterTable].
  destruct (Z.leb_spec (Z.of_nat (length registers)) other); [ | lia].
  split; reflexivity.
Qed.

Lemma MemoryRegisterTable_register_file_witness :
  write MemoryRegisterTable 1 9 [5; 6; 7] = (Ret true, [5; 9; 7])
  /\ length [5; 9; 7] = length [5; 6; 7]
  /\ read MemoryRegisterTable 1 [5; 9; 7] = (Ret (Some 9), [5; 9; 7])
  /\ read MemoryRegisterTable 3 [5; 9; 7]
     = (fst (read MemoryRegisterTable 3 [5; 6; 7]), [5; 9; 7])
  /\ (Z.of_nat (length [5; 6; 7]) <= 3 ->
      write MemoryRegisterTable 3 9 [5; 6; 7] = (Ret false, [5; 6; 7])
      /\ read MemoryRegisterTable 3 [5; 6; 7] = (Ret None, [5; 6; 7])).
Proof.
  apply (MemoryRegisterTable_register_file [5; 6; 7] 1 9 3).
  - cbn. lia.
  - lia.
  - discriminate.
Defined.

(** X24. On the example server in 16-bit mode, a Write Single Register
    request at an address inside the backend is echoed, and a Read
    Holding Registers request for that one register then returns
    [03 02] and the two value bytes just written. *)
Theorem write_single_then_read (registers : list Z) (a1 a0 v1 v0 : byte) :
  get_u16 [a1; a0] < Z.of_nat (length registers) ->
  exists registers' : list Z,
    dispatch_pdu (example_server W16) [x06; a1; a0; v1; v0] registers
    = (Ret [x06; a1; a0; v1; v0], registers')
    /\ dispatch_pdu (example_server W16) [x03; a1; a0; x00; x01] registers'
       = (Ret [x03; x02; v1; v0], registers').
Proof.
  intros Ha. pose proof (get_u16_range [a1; a0]) as Hrange.
  set (address := get_u16 [a1; a0]) in *.
  set (value := get_u16 [v1; v0]).
  exists (vector_set registers (Z.to_nat address) value). split.
  - change (dispatch_pdu (example_server W16) [x06; a1; a0; v1; v0])
      with (write_single_register (example_server W16)
              [x06; a1; a0; v1; v0]).
    unfold write_single_register.
    cbn [length Nat.eqb negb skipn data_width example_server Server_new
         register_tables].
    change (get_u16 [a1; a0; v1; v0]) with address.
    fold value. unfold try_catch, bind.
    rewrite mem_chain_write by lia. reflexivity.
  - rewrite read_holding_registers_valid;
      [ | reflexivity | vm_compute; discriminate].
    fold address. change (get_u16 [x00; x01]) with 1.
    cbn [data_width example_server Server_new width_of].
    change (Z.to_nat 1) with 1%nat. unfold try_catch. cbn [read_loop].
    change (0 * 1 <? 1) with true. cbv iota. unfold bind.
    cbn [register_tables example_server Server_new].
    rewrite Z.add_0_r, mem_chain_read
      by (rewrite vector_set_length; lia).
    rewrite vector_set_nth_eq by lia.
    unfold ret, push_value. cbn [data_width example_server Server_new].
    unfold value, get_u16 at 1. rewrite u16_idem.
    fold (get_u16 [v1; v0]). rewrite push_u16_get_u16. reflexivity.
Qed.

Lemma write_single_then_read_witness :
  exists registers' : list Z,
    dispatch_pdu (example_server W16) [x06; x00; x01; x12; x34] [5; 6]
    = (Ret [x06; x00; x01; x12; x34], registers')
    /\ dispatch_pdu (example_server W16) [x03; x00; x01; x00; x01] registers'
       = (Ret [x03; x02; x12; x34], registers').
Proof.
  apply (write_single_then_read [5; 6] x00 x01 x12 x34).
  vm_compute. reflexivity.
Defined.

Section RegisterRanges.

Variable start : Z.
Variable value_at : Z -> Z.

Lemma store_range_length (n : nat) :
  forall (i : Z) (registers : list Z),
    length (store_range registers start value_at i n) = length registers.
Proof.
  induction n as [ | n IH]; intros i registers; cbn [store_range];
    [reflexivity | ].
  rewrite IH. apply vector_set_length.
Qed.

(** Registers below the range are not touched. *)
Lemma store_range_before (n : nat) :
  forall (i : Z) (registers : list Z) (k : nat),
    0 <= start + i ->
    (k < Z.to_nat (start + i))%nat ->
    nth k (store_range registers start value_at i n) 0 = nth k registers 0.
Proof.
  induction n as [ | n IH]; intros i registers k Hi Hk; cbn [store_range];
    [reflexivity | ].
  rewrite IH by lia. apply vector_set_nth_neq. lia.
Qed.

(** What was stored in a range is what the range holds. *)
Lemma load_store_range (n : nat) :
  forall (i : Z) (registers : list Z),
    0 <= start + i ->
    start + i + Z.of_nat n <= Z.of_nat (length registers) ->
    load_range (store_range registers start value_at i n) start i n
    = range_values value_at i n.
Proof.
  induction n as [ | n IH]; intros i registers Hi Hn;
    cbn [store_range load_range range_values]; [reflexivity | ].
  f_equal.
  - rewrite store_range_before by lia. apply vector_set_nth_eq. lia.
  - apply IH; [lia | rewrite vector_set_length; lia].
Qed.

Lemma mem_writes_owned (n : nat) :
  forall (i : Z) (registers : list Z),
    0 <= start + i ->
    start + i + Z.of_nat n <= Z.of_nat (length registers) ->
    writes_owned [MemoryRegisterTable] start value_at i n registers
      (store_range registers start value_at i n).
Proof.
  induction n as [ | n IH]; intros i registers Hi Hn; cbn [store_range].
  - apply writes_owned_nil.
  - eapply writes_owned_cons; [apply mem_chain_write; lia | ].
    apply IH; [lia | rewrite vector_set_length; lia].
Qed.

Lemma mem_reads_owned (n : nat) :
  forall (i : Z) (registers : list Z),
    0 <= start + i ->
    start + i + Z.of_nat n <= Z.of_nat (length registers) ->
    reads_owned [MemoryRegisterTable] start i
      (load_range registers start i n) registers registers.
Proof.
  induction n as [ | n IH]; intros i registers Hi Hn; cbn [load_range].
  - apply reads_owned_nil.
  - eapply reads_owned_cons; [apply mem_chain_read; lia | ].
    apply IH; lia.
Qed.

Lemma range_values_length (n : nat) :
  forall i : Z, length (range_values value_at i n) = n.
Proof.
  induction n as [ | n IH]; intros i; cbn [range_values length];
    [reflexivity | ].
  rewrite IH. reflexivity.
Qed.

End RegisterRanges.

Lemma skipn_exact {A : Type} (l1 l2 : list A) (k : nat) :
  length l1 = k -> skipn k (l1 ++ l2) = l2.
Proof.
  intros <-. rewrite skipn_app, skipn_all, Nat.sub_diag. reflexivity.
Qed.

(** The values decoded from a request's payload, pushed back at the
    configured width, are the payload. *)
Lemma payload_values {W : Type} (srv : Server W) (request hdr : list byte) :
  length hdr = 6%nat ->
  forall (n : nat) (i : Z) (done todo : list byte),
    request = hdr ++ done ++ todo ->
    0 <= i ->
    Z.of_nat (length done) = 2 * i * width_of (data_width srv) ->
    Z.of_nat (length todo) = 2 * width_of (data_width srv) * Z.of_nat n ->
    flat_map (push_value srv)
      (range_values (request_value srv request (width_of (data_width srv)))
         i n)
    = todo.
Proof.
  intros Hhdr.
  induction n as [ | n IH]; intros i done todo Hreq Hi Hdone Htodo.
  - destruct todo; [reflexivity | cbn [length] in Htodo; lia].
  - cbn [range_values flat_map].
    assert (Hskip : skipn (Z.to_nat (6 + 2 * i * width_of (data_width srv)))
                      request = todo).
    { rewrite Hreq, app_assoc. apply skipn_exact.
      rewrite length_app. lia. }
    unfold request_value at 1, push_value at 1. rewrite Hskip.
    destruct (data_width srv) eqn:Hdw; cbn [width_of] in *.
    + destruct todo as [ | a [ | b todo]]; cbn [length] in Htodo; try lia.
      unfold get_u16 at 1. rewrite u16_idem. fold (get_u16 (a :: b :: todo)).
      rewrite push_u16_get_u16. cbn [app]. f_equal. f_equal.
      apply (IH (i + 1) (done ++ [a; b]) todo).
      * rewrite Hreq, <- app_assoc. reflexivity.
      * lia.
      * rewrite length_app. cbn [length]. lia.
      * lia.
    + destruct todo as [ | a [ | b [ | c [ | d todo]]]];
        cbn [length] in Htodo; try lia.
      unfold get_u32 at 1. rewrite u32_idem.
      fold (get_u32 (a :: b :: c :: d :: todo)).
      rewrite get_u32_cons, push_u32_bytes. cbn [app]. do 4 f_equal.
      apply (IH (i + 1) (done ++ [a; b; c; d]) todo).
      * rewrite Hreq, <- app_assoc. reflexivity.
      * lia.
      * rewrite length_app. cbn [length]. lia.
      * lia.
Qed.

(** X25. On the example server, in either width, a Write Multiple
    Registers request of valid shape whose range lies inside the backend
    is answered with its first five bytes, keeps the backend's size, and a
    Read Holding Registers request for the same range then returns
    [03], the same byte count and the very payload bytes that were
    written. *)
Theorem write_multiple_then_read (dw : DataWidth) (registers : list Z)
    (s1 s0 q1 q0 bc : byte) (payload : list byte) :
  let request := x10 :: s1 :: s0 :: q1 :: q0 :: bc :: payload in
  let start := get_u16 [s1; s0] in
  let quantity := get_u16 [q1; q0] in
  let width := width_of dw in
  to_Z bc = quantity * 2 ->
  quantity mod width = 0 ->
  Z.of_nat (length payload) = to_Z bc ->
  start + quantity / width <= Z.of_nat (length registers) ->
  exists registers' : list Z,
    dispatch_pdu (example_server dw) request registers
    = (Ret [x10; s1; s0; q1; q0], registers')
    /\ length registers' = length registers
    /\ dispatch_pdu (example_server dw) [x03; s1; s0; q1; q0] registers'
       = (Ret (x03 :: bc :: payload), registers').
Proof.
  intros request start quantity width Hbc Hmod Hsize Hfit.
  pose proof (width_of_pos dw) as Hwidth. fold width in Hwidth.
  pose proof (get_u16_range [s1; s0]) as Hstart. fold start in Hstart.
  pose proof (get_u16_range [q1; q0]) as Hq. fold quantity in Hq.
  pose proof (to_Z_range bc) as Hbyte.
  set (n := Z.to_nat (quantity / width)).
  assert (Hn : Z.of_nat n * width = quantity).
  { unfold n. rewrite Z2Nat.id by (apply Z.div_pos; lia).
    pose proof (Z.div_mod quantity width ltac:(lia)). lia. }
  assert (Hn' : Z.of_nat n = quantity / width)
    by (unfold n; rewrite Z2Nat.id by (apply Z.div_pos; lia); reflexivity).
  set (srv := example_server dw).
  set (value_at := request_value srv request width).
  set (registers' := store_range registers start value_at 0 n).
  assert (Hlen : length registers' = length registers)
    by apply store_range_length.
  exists registers'. split; [ | split; [exact Hlen | ]].
  - apply (write_multiple_registers_run srv s1 s0 q1 q0 bc payload n
             registers registers'); try assumption.
    apply mem_writes_owned; lia.
  - pose proof (read_holding_registers_run srv s1 s0 q1 q0
                  (range_values value_at 0 n) registers' registers') as Hrun.
    cbv zeta in Hrun. fold start in Hrun. fold quantity in Hrun.
    destruct Hrun as [Hrun _].
    + lia.
    + rewrite range_values_length. exact Hn.
    + rewrite <- (load_store_range start value_at n 0 registers) by lia.
      fold registers'.
      apply mem_reads_owned; [lia | rewrite Hlen; lia].
    + rewrite Hrun, <- Hbc, u8_to_Z. do 4 f_equal.
      apply (payload_values srv request [x10; s1; s0; q1; q0; bc] eq_refl
               n 0 [] payload); [reflexivity | lia | reflexivity | ].
      change (width_of (data_width srv)) with width. lia.
Qed.

Lemma write_multiple_then_read_witness :
  exists registers' : list Z,
    dispatch_pdu (example_server W32)
      [x10; x00; x01; x00; x04; x08; x00; x01; x00; x02; xff; x03; x00; x04]
      [0; 0; 0]
    = (Ret [x10; x00; x01; x00; x04], registers')
    /\ length registers' = length [0; 0; 0]
    /\ dispatch_pdu (example_server W32) [x03; x00; x01; x00; x04] registers'
       = (Ret (x03 :: x08 :: [x00; x01; x00; x02; xff; x03; x00; x04]),
          registers').
Proof.
  apply (write_multiple_then_read W32 [0; 0; 0] x00 x01 x00 x04 x08
           [x00; x01; x00; x02; xff; x03; x00; x04]).
  - reflexivity.
  - reflexivity.
  - reflexivity.
  - vm_compute. discriminate.
Defined.

(** ** Event loop: the pass over the connections *)

Lemma vector_assign_app {A : Type} (pre post : list A) (x y : A) :
  vector_assign (pre ++ x :: post) (length pre) y = pre ++ y :: post.
Proof.
  induction pre as [ | a pre IH]; cbn [app length vector_assign];
    [reflexivity | ].
  rewrite IH. reflexivity.
Qed.

(** Removing the last entry. *)
Lemma swap_remove_last {A : Type} (pre : list A) (x d : A) :
  swap_remove (pre ++ [x]) (length pre) d = pre.
Proof.
  unfold swap_remove. rewrite last_last, vector_assign_app.
  apply removelast_last.
Qed.

(** Removing an entry before the last: the last entry takes its place. *)
Lemma swap_remove_middle {A : Type} (pre post : list A) (x z d : A) :
  swap_remove (pre ++ x :: post ++ [z]) (length pre) d = pre ++ z :: post.
Proof.
  unfold swap_remove.
  replace (last (pre ++ x :: post ++ [z]) d) with z.
  - rewrite vector_assign_app.
    change (pre ++ z :: post ++ [z]) with (pre ++ (z :: post) ++ [z]).
    rewrite app_assoc, removelast_last. reflexivity.
  - change (pre ++ x :: post ++ [z]) with (pre ++ (x :: post) ++ [z]).
    rewrite app_assoc, last_last. reflexivity.
Qed.

(** An index inside a list splits it. *)
Lemma split_at {A : Type} (l : list A) (i : nat) (d : A) :
  (i < length l)%nat ->
  exists pre post, l = pre ++ nth i l d :: post /\ length pre = i.
Proof.
  intros H. destruct (nth_split l d H) as [pre [post [Hl Hlen]]].
  exists pre, post. split; assumption.
Qed.

(** What [swap_remove] does to a list, entry by entry. *)
Lemma swap_remove_spec {A : Type} (l : list A) (i : nat) (d : A) :
  (i < length l)%nat ->
  length (swap_remove l i d) = (length l - 1)%nat
  /\ (forall j, (j < i)%nat -> nth j (swap_remove l i d) d = nth j l d)
  /\ Permutation l (nth i l d :: swap_remove l i d).
Proof.
  intros H. destruct (split_at l i d H) as [pre [post [Hl Hlen]]].
  set (x := nth i l d) in *. clearbody x. subst i l.
  destruct (exists_last (l := x :: post) ltac:(discriminate))
    as [body [z Hlast]].
  destruct body as [ | x' body].
  - cbn [app] in Hlast. injection Hlast as -> ->.
    rewrite swap_remove_last. rewrite length_app. cbn [length].
    split; [lia | ]. split.
    + intros j Hj. rewrite app_nth1 by lia. reflexivity.
    + symmetry. apply Permutation_cons_append.
  - cbn [app] in Hlast. injection Hlast as <- ->.
    rewrite swap_remove_middle. rewrite !length_app. cbn [length].
    rewrite length_app. cbn [length].
    split; [lia | ]. split.
    + intros j Hj. rewrite !app_nth1 by lia. reflexivity.
    + rewrite <- Permutation_middle. apply perm_skip.
      apply Permutation_app_head.
      change (z :: body) with ([z] ++ body).
      apply Permutation_app_comm.
Qed.

Section EventLoopFacts.

Variables POLLIN POLLERR POLLHUP POLLNVAL : Z.
Context {K : Type}.
Variable handle : Z -> K -> outcome bool * K.
Variable close : Z -> K -> K.

Notation error_on := (has_error POLLERR POLLHUP POLLNVAL).
Notation input_on := (is_readable POLLIN).
Notation pass :=
  (serve_connections POLLIN POLLERR POLLHUP POLLNVAL handle close).
Notation no_pollfd := {| fd := 0; events := 0; revents := 0 |}.

(** The pass from index [i] on, given that the entries below [i] carry no
    error condition. *)
Lemma serve_connections_from (fuel : nat) :
  forall (i : nat) (l : list pollfd) (s : K),
    (1 <= i <= length l)%nat ->
    (length l - i <= fuel)%nat ->
    (forall j, (1 <= j < i)%nat -> error_on (nth j l no_pollfd) = false) ->
    let l' := fst (pass fuel i l s) in
    nth 0 l' no_pollfd = nth 0 l no_pollfd
    /\ (1 <= length l')%nat
    /\ (exists removed : list pollfd,
           Permutation l (l' ++ removed)
           /\ Forall (fun p => error_on p = true \/ input_on p = true)
                removed)
    /\ (forall j, (1 <= j < length l')%nat ->
                  error_on (nth j l' no_pollfd) = false).
Proof.
  assert (Hstop : forall (i : nat) (l : list pollfd),
             (1 <= i <= length l)%nat -> (length l - i <= 0)%nat ->
             (forall j, (1 <= j < i)%nat ->
                        error_on (nth j l no_pollfd) = false) ->
             nth 0 l no_pollfd = nth 0 l no_pollfd
             /\ (1 <= length l)%nat
             /\ (exists removed : list pollfd,
                    Permutation l (l ++ removed)
                    /\ Forall (fun p => error_on p = true
                                        \/ input_on p = true) removed)
             /\ (forall j, (1 <= j < length l)%nat ->
                           error_on (nth j l no_pollfd) = false)).
  { intros i l Hi Hend Hbelow. split; [reflexivity | ]. split; [lia | ].
    split.
    - exists []. rewrite app_nil_r. split; [reflexivity | constructor].
    - intros j Hj. apply Hbelow. lia. }
  induction fuel as [ | fuel IH]; intros i l s Hi Hfuel Hbelow.
  - cbn [serve_connections fst].
    apply (Hstop i); assumption.
  - cbn [serve_connections].
    destruct (Nat.ltb_spec i (length l)) as [Hlt | Hge];
      [ | cbn [fst]; apply (Hstop i); [assumption | lia | assumption]].
    set (p := nth i l no_pollfd).
    assert (Hclose : forall s1 : K,
               error_on p = true \/ input_on p = true ->
               let l' := fst (pass fuel i
                                (swap_remove l i no_pollfd) s1) in
               nth 0 l' no_pollfd = nth 0 l no_pollfd
               /\ (1 <= length l')%nat
               /\ (exists removed : list pollfd,
                      Permutation l (l' ++ removed)
                      /\ Forall (fun p => error_on p = true
                                          \/ input_on p = true) removed)
               /\ (forall j, (1 <= j < length l')%nat ->
                             error_on (nth j l' no_pollfd) = false)).
    { intros s1 Hwhy.
      destruct (swap_remove_spec l i no_pollfd Hlt) as [Hlen [Hnth Hperm]].
      fold p in Hperm.
      destruct (IH i (swap_remove l i no_pollfd) s1) as [H0 [H1 [H2 H3]]].
      - lia.
      - lia.
      - intros j Hj. rewrite Hnth by lia. apply Hbelow. exact Hj.
      - split; [rewrite H0; apply Hnth; lia | ]. split; [exact H1 | ].
        split; [ | exact H3].
        destruct H2 as [removed [Hp Hall]]. exists (p :: removed). split.
        + apply Permutation_trans with (p :: swap_remove l i no_pollfd);
            [exact Hperm | ].
          eapply Permutation_trans; [apply perm_skip; exact Hp | ].
          apply Permutation_middle.
        + constructor; assumption. }
    assert (Hkeep : forall s1 : K,
               error_on p = false ->
               let l' := fst (pass fuel (S i) l s1) in
               nth 0 l' no_pollfd = nth 0 l no_pollfd
               /\ (1 <= length l')%nat
               /\ (exists removed : list pollfd,
                      Permutation l (l' ++ removed)
                      /\ Forall (fun p => error_on p = true
                                          \/ input_on p = true) removed)
               /\ (forall j, (1 <= j < length l')%nat ->
                             error_on (nth j l' no_pollfd) = false)).
    { intros s1 Hok. apply IH; [lia | lia | ].
      intros j Hj. destruct (Nat.eq_dec j i) as [-> | Hne];
        [exact Hok | apply Hbelow; lia]. }
    destruct (error_on p) eqn:Herr; cbn [negb andb].
    + apply Hclose. left. reflexivity.
    + destruct (input_on p) eqn:Hread.
      * destruct (handle (fd p) s) as [[[ | ] | ] s1].
        -- apply Hkeep. reflexivity.
        -- apply Hclose. right. reflexivity.
        -- apply Hclose. right. reflexivity.
      * apply Hkeep. reflexivity.
Qed.

(** A pass over connections none of which has an event pending. *)
Lemma serve_connections_quiet (fuel : nat) :
  forall (i : nat) (l : list pollfd) (s : K),
    (forall j, (i <= j < length l)%nat ->
               error_on (nth j l no_pollfd) = false
               /\ input_on (nth j l no_pollfd) = false) ->
    pass fuel i l s = (l, s).
Proof.
  induction fuel as [ | fuel IH]; intros i l s Hquiet; [reflexivity | ].
  cbn [serve_connections].
  destruct (Nat.ltb_spec i (length l)) as [Hlt | Hge]; [ | reflexivity].
  destruct (Hquiet i ltac:(lia)) as [-> ->]. cbn [negb andb].
  apply IH. intros j Hj. apply Hquiet. lia.
Qed.

End EventLoopFacts.

(** X26. One pass of the event loop over the connections, started at
    index 1 on a poll list that begins with the listening socket: the
    listening entry stays first; the entries after the pass together with
    the removed ones are the entries before it, none lost, duplicated or
    changed; only entries with an error condition or with input pending
    are removed; and no entry with an error condition is left. *)
Theorem serve_connections_pass (POLLIN POLLERR POLLHUP POLLNVAL : Z)
    {K : Type} (handle : Z -> K -> outcome bool * K) (close : Z -> K -> K)
    (l : list pollfd) (s : K) :
  (1 <= length l)%nat ->
  let l' := fst (serve_connections POLLIN POLLERR POLLHUP POLLNVAL handle
                   close (length l) 1 l s) in
  hd_error l' = hd_error l
  /\ (exists removed : list pollfd,
         Permutation l (l' ++ removed)
         /\ Forall (fun p => has_error POLLERR POLLHUP POLLNVAL p = true
                             \/ is_readable POLLIN p = true) removed)
  /\ Forall (fun p => has_error POLLERR POLLHUP POLLNVAL p = false) (tl l').
Proof.
  intros Hlen l'.
  destruct (serve_connections_from POLLIN POLLERR POLLHUP POLLNVAL handle
              close (length l) 1 l s) as [H0 [H1 [H2 H3]]];
    [lia | lia | intros j Hj; lia | ].
  fold l' in H0, H1, H2, H3. split; [ | split; [exact H2 | ]].
  - destruct l' as [ | p' l']; [cbn [length] in H1; lia | ].
    destruct l as [ | p l]; [cbn [length] in Hlen; lia | ].
    cbn [nth] in H0. subst p'. reflexivity.
  - apply Forall_forall. intros p Hp.
    destruct l' as [ | p' l']; [contradiction | ]. cbn [tl] in Hp.
    destruct (In_nth l' p {| fd := 0; events := 0; revents := 0 |} Hp)
      as [j [Hj <-]].
    apply (H3 (S j)). cbn [length]. lia.
Qed.

Lemma serve_connections_pass_witness :
  hd_error
    (fst (serve_connections 1 8 16 32 (handle_fd (example_server W16))
            close_fd 4 1
            [ {| fd := 3; events := 1; revents := 0 |};
              {| fd := 4; events := 1; revents := 16 |};
              {| fd := 5; events := 1; revents := 0 |};
              {| fd := 6; events := 1; revents := 1 |} ]
            {| sockets :=
                 [(4, {| inbound := []; outbound := []; sent := [] |});
                  (5, {| inbound := []; outbound := []; sent := [] |});
                  (6, {| inbound := [RecvData [x00; x07; x00; x00; x00; x06;
                                               x01; x06; x00; x01; x00; x04]];
                         outbound := []; sent := [] |})];
               closed := []; backends := [16; 32] |}))
  = hd_error
      [ {| fd := 3; events := 1; revents := 0 |};
        {| fd := 4; events := 1; revents := 16 |};
        {| fd := 5; events := 1; revents := 0 |};
        {| fd := 6; events := 1; revents := 1 |} ]
  /\ (exists removed : list pollfd,
         Permutation
           [ {| fd := 3; events := 1; revents := 0 |};
             {| fd := 4; events := 1; revents := 16 |};
             {| fd := 5; events := 1; revents := 0 |};
             {| fd := 6; events := 1; revents := 1 |} ]
           (fst (serve_connections 1 8 16 32
                   (handle_fd (example_server W16)) close_fd 4 1
                   [ {| fd := 3; events := 1; revents := 0 |};
                     {| fd := 4; events := 1; revents := 16 |};
                     {| fd := 5; events := 1; revents := 0 |};
                     {| fd := 6; events := 1; revents := 1 |} ]
                   {| sockets :=
                        [(4, {| inbound := []; outbound := []; sent := [] |});
                         (5, {| inbound := []; outbound := []; sent := [] |});
                         (6, {| inbound :=
                                  [RecvData [x00; x07; x00; x00; x00; x06;
                                             x01; x06; x00; x01; x00; x04]];
                                outbound := []; sent := [] |})];
                      closed := []; backends := [16; 32] |})
              ++ removed)
         /\ Forall (fun p => has_error 8 16 32 p = true
                             \/ is_readable 1 p = true) removed)
  /\ Forall (fun p => has_error 8 16 32 p = false)
       (tl (fst (serve_connections 1 8 16 32
                   (handle_fd (example_server W16)) close_fd 4 1
                   [ {| fd := 3; events := 1; revents := 0 |};
                     {| fd := 4; events := 1; revents := 16 |};
                     {| fd := 5; events := 1; revents := 0 |};
                     {| fd := 6; events := 1; revents := 1 |} ]
                   {| sockets :=
                        [(4, {| inbound := []; outbound := []; sent := [] |});
                         (5, {| inbound := []; outbound := []; sent := [] |});
                         (6, {| inbound :=
                                  [RecvData [x00; x07; x00; x00; x00; x06;
                                             x01; x06; x00; x01; x00; x04]];
                                outbound := []; sent := [] |})];
                      closed := []; backends := [16; 32] |}))).
Proof.
  apply (serve_connections_pass 1 8 16 32 (handle_fd (example_server W16))
           close_fd
           [ {| fd := 3; events := 1; revents := 0 |};
             {| fd := 4; events := 1; revents := 16 |};
             {| fd := 5; events := 1; revents := 0 |};
             {| fd := 6; events := 1; revents := 1 |} ]).
  cbn. lia.
Defined.

(** The same pass, run: descriptor 4 has hung up and is closed, with
    descriptor 6 moved into its place; descriptor 6 has a request pending,
    which is served on its socket and reaches the backend; descriptor 5 is
    left alone. *)
Example serve_connections_run :
  serve_connections 1 8 16 32 (handle_fd (example_server W16)) close_fd 4 1
    [ {| fd := 3; events := 1; revents := 0 |};
      {| fd := 4; events := 1; revents := 16 |};
      {| fd := 5; events := 1; revents := 0 |};
      {| fd := 6; events := 1; revents := 1 |} ]
    {| sockets :=
         [(4, {| inbound := []; outbound := []; sent := [] |});
          (5, {| inbound := []; outbound := []; sent := [] |});
          (6, {| inbound := [RecvData [x00; x07; x00; x00; x00; x06;
                                       x01; x06; x00; x01; x00; x04]];
                 outbound := []; sent := [] |})];
       closed := []; backends := [16; 32] |}
  = ([ {| fd := 3; events := 1; revents := 0 |};
       {| fd := 6; events := 1; revents := 1 |};
       {| fd := 5; events := 1; revents := 0 |} ],
     {| sockets :=
          [(5, {| inbound := []; outbound := []; sent := [] |});
           (6, {| inbound := []; outbound := [];
                  sent := [x00; x07; x00; x00; x00; x06; x01;
                           x06; x00; x01; x00; x04] |})];
        closed := [4]; backends := [16; 4] |}).
Proof. reflexivity. Qed.

(** X27. A pass over connections on which [poll] reported neither an
    error condition nor input changes nothing: the poll list is the same,
    no request handler runs and no socket is closed. *)
Theorem serve_connections_idle (POLLIN POLLERR POLLHUP POLLNVAL : Z)
    {K : Type} (handle : Z -> K -> outcome bool * K) (close : Z -> K -> K)
    (fuel : nat) (l : list pollfd) (s : K) :
  Forall (fun p => has_error POLLERR POLLHUP POLLNVAL p = false
                   /\ is_readable POLLIN p = false) (tl l) ->
  serve_connections POLLIN POLLERR POLLHUP POLLNVAL handle close fuel 1 l s
  = (l, s).
Proof.
  intros Hquiet. apply serve_connections_quiet. intros j Hj.
  destruct l as [ | p0 l]; [cbn [length] in Hj; lia | ].
  cbn [tl] in Hquiet. destruct j as [ | j]; [lia | ]. cbn [nth].
  rewrite Forall_forall in Hquiet. apply Hquiet. apply nth_In.
  cbn [length] in Hj. lia.
Qed.

Lemma serve_connections_idle_witness :
  serve_connections 1 8 16 32 (handle_fd (example_server W16)) close_fd 3 1
    [ {| fd := 3; events := 1; revents := 1 |};
      {| fd := 4; events := 1; revents := 0 |};
      {| fd := 5; events := 1; revents := 4 |} ]
    {| sockets := [(4, {| inbound := [RecvData [x01]]; outbound := [];
                          sent := [] |})];
       closed := []; backends := [16; 32] |}
  = ([ {| fd := 3; events := 1; revents := 1 |};
       {| fd := 4; events := 1; revents := 0 |};
       {| fd := 5; events := 1; revents := 4 |} ],
     {| sockets := [(4, {| inbound := [RecvData [x01]]; outbound := [];
                           sent := [] |})];
        closed := []; backends := [16; 32] |}).
Proof.
  apply (serve_connections_idle 1 8 16 32 (handle_fd (example_server W16))
           close_fd 3).
  repeat constructor.
Defined.

(** ** Socket timeouts *)

(** X28. For a timeout that is not negative, [set_sock_timeouts_ms] gives
    [SO_RCVTIMEO] and [SO_SNDTIMEO] the same duration as the milliseconds
    it was given: whole seconds and a microsecond part below one
    second, with nothing rounded away. *)
Theorem set_sock_timeouts_ms_exact (rcv_ms snd_ms : Z) :
  0 <= rcv_ms -> 0 <= snd_ms ->
  let (rcv, snd_) := set_sock_timeouts_ms rcv_ms snd_ms in
  tv_sec rcv * 1000000 + tv_usec rcv = rcv_ms * 1000
  /\ 0 <= tv_sec rcv /\ 0 <= tv_usec rcv < 1000000
  /\ tv_sec snd_ * 1000000 + tv_usec snd_ = snd_ms * 1000
  /\ 0 <= tv_sec snd_ /\ 0 <= tv_usec snd_ < 1000000.
Proof.
  intros Hr Hs. cbn [set_sock_timeouts_ms timeval_of_ms tv_sec tv_usec].
  rewrite !Z.quot_div_nonneg, !Z.rem_mod_nonneg by lia.
  pose proof (Z.div_mod rcv_ms 1000 ltac:(lia)).
  pose proof (Z.div_mod snd_ms 1000 ltac:(lia)).
  pose proof (Z.mod_pos_bound rcv_ms 1000 ltac:(lia)).
  pose proof (Z.mod_pos_bound snd_ms 1000 ltac:(lia)).
  pose proof (Z.div_pos rcv_ms 1000 Hr ltac:(lia)).
  pose proof (Z.div_pos snd_ms 1000 Hs ltac:(lia)).
  lia.
Qed.

Lemma set_sock_timeouts_ms_exact_witness :
  let (rcv, snd_) := set_sock_timeouts_ms 1000 2500 in
  tv_sec rcv * 1000000 + tv_usec rcv = 1000 * 1000
  /\ 0 <= tv_sec rcv /\ 0 <= tv_usec rcv < 1000000
  /\ tv_sec snd_ * 1000000 + tv_usec snd_ = 2500 * 1000
  /\ 0 <= tv_sec snd_ /\ 0 <= tv_usec snd_ < 1000000.
Proof.
  apply (set_sock_timeouts_ms_exact 1000 2500); lia.
Defined.
